(** * AlgoTrading: the signal generator and the backtest simulator

    A shallow embedding of [algo_trading_system/indicators.py] and
    [algo_trading_system/strategy.py].  Prices, indicators and capital are
    IEEE-754 binary64 numbers, as Python's [float] and NumPy's [float64] are;
    they are modelled by Rocq's primitive floats, so an undefined indicator is
    the NaN that pandas stores for it. *)

From Stdlib Require Import ZArith List Bool Lia Floats.
From Stdlib Require Uint63.
From Stdlib Require String.
Import ListNotations.

Local Open Scope float_scope.

(** ** Binary64 comparisons and conversions *)

Module F64.

Definition is_nan := PrimFloat.is_nan.

(** [x > y] and [x >= y], as Python evaluates them: false on NaN. *)
Definition gtb (x y : float) : bool := y <? x.
Definition geb (x y : float) : bool := y <=? x.

(** A finite number other than the two zeros. *)
Definition finite_nonzero (x : float) : bool :=
  PrimFloat.is_finite x && negb (x =? 0).

(** Conversion of a count to a float ([int] to [float64]). *)
Definition of_nat (n : nat) : float := of_uint63 (Uint63.of_Z (Z.of_nat n)).

End F64.

(** ** The pandas operations the program calls

    pandas is a library the program imports; these definitions follow its
    documented behaviour on a float64 [Series] and, for the rolling mean and
    the exponentially weighted means, the arithmetic of its kernels, step by
    step.  A [Series] is the list of its values in index order; every
    operation below keeps the index. *)

Module Pandas.

Definition Series := list float.

(** An elementwise operation on two [Series] that share one index. *)
Fixpoint zip_with {A B C : Type} (f : A -> B -> C) (xs : list A) (ys : list B) : list C :=
  match xs, ys with
  | x :: xs', y :: ys' => f x y :: zip_with f xs' ys'
  | _, _ => []
  end.

(** [s.shift(1)]: every value moves one row down, the first row gets NaN. *)
Definition shift (xs : Series) : Series := firstn (length xs) (nan :: xs).

(** [s.diff()]: the difference with the previous row. *)
Definition diff (xs : Series) : Series := zip_with sub xs (shift xs).

(** [s.clip(lower=lo)] and [s.clip(upper=hi)]: NaN rows are kept, and a row is
    replaced by the threshold when it is beyond it. *)
Definition clip_lower (lo : float) (xs : Series) : Series :=
  map (fun x => if F64.is_nan x || F64.geb x lo then x else lo) xs.

Definition clip_upper (hi : float) (xs : Series) : Series :=
  map (fun x => if F64.is_nan x || (x <=? hi) then x else hi) xs.

(** [-s] *)
Definition neg (xs : Series) : Series := map opp xs.

(** The rows of the trailing window of [window] rows that ends at row [i]. *)
Definition window_at (window i : nat) (xs : Series) : Series :=
  skipn (S i - window) (firstn (S i) xs).

Definition observations (xs : Series) : Series :=
  filter (fun x => negb (F64.is_nan x)) xs.

Definition sum (xs : Series) : float := fold_left add xs 0.

(** pandas hands the values of a rolling or exponentially weighted window to
    its kernels with every infinity replaced by NaN: an infinite value counts
    as a missing one. *)
Definition prep_value (x : float) : float :=
  if PrimFloat.is_infinity x then nan else x.

Definition prep_values (xs : Series) : Series := map prep_value xs.

(** [s.rolling(window, min_periods).mean()].  pandas' kernel [roll_mean]
    slides the window along the rows: it keeps the number of observations in
    the window, their sum (a compensated, Kahan, sum: one compensation for
    additions and one for removals), the number of negative observations,
    and the length of the current run of equal values. *)
Record mean_state := mk_mean {
  mean_nobs : nat;
  sum_x : float;
  neg_ct : nat;
  compensation_add : float;
  compensation_remove : float;
  num_consecutive_same_value : nat;
  prev_value : float
}.

(** The state a window starts from; [first] is the first value of the window. *)
Definition setup_mean (first : float) : mean_state := mk_mean 0 0 0 0 0 0 first.

Definition add_mean (val : float) (st : mean_state) : mean_state :=
  if F64.is_nan val then st
  else
    let y := val - compensation_add st in
    let t := sum_x st + y in
    mk_mean (S (mean_nobs st)) t
            (if get_sign val then S (neg_ct st) else neg_ct st)
            (t - sum_x st - y) (compensation_remove st)
            (if val =? prev_value st then S (num_consecutive_same_value st) else 1%nat)
            val.

Definition remove_mean (val : float) (st : mean_state) : mean_state :=
  if F64.is_nan val then st
  else
    let y := - val - compensation_remove st in
    let t := sum_x st + y in
    mk_mean (mean_nobs st - 1) t
            (if get_sign val then (neg_ct st - 1)%nat else neg_ct st)
            (compensation_add st) (t - sum_x st - y)
            (num_consecutive_same_value st) (prev_value st).

(** The value of a row: NaN below [minp] observations; the repeated value
    itself when the whole window holds one value; 0 when rounding gave the
    mean a sign no observation has. *)
Definition calc_mean (minp : nat) (st : mean_state) : float :=
  if (minp <=? mean_nobs st)%nat && (0 <? mean_nobs st)%nat then
    let result := sum_x st / F64.of_nat (mean_nobs st) in
    if (mean_nobs st <=? num_consecutive_same_value st)%nat then prev_value st
    else if (neg_ct st =? 0)%nat && (result <? 0) then 0
    else if (neg_ct st =? mean_nobs st)%nat && (0 <? result) then 0
    else result
  else nan.

(** The state of the kernel after row [i] of a window of [window >= 1] rows:
    the window of row [i] is rows [i + 1 - window] to [i].  It is set up
    afresh on the first row and when it shares no row with the one before
    (a window of one row); otherwise the row that left is removed, then the
    new row is added. *)
Fixpoint roll_mean_state (window : nat) (values : Series) (i : nat) : mean_state :=
  match i with
  | O => add_mean (nth 0 values nan) (setup_mean (nth 0 values nan))
  | S k =>
      if (window <=? 1)%nat then
        add_mean (nth (S k) values nan) (setup_mean (nth (S k) values nan))
      else
        let st := roll_mean_state window values k in
        let st1 := if (window <=? S k)%nat
                   then remove_mean (nth (S k - window) values nan) st
                   else st in
        add_mean (nth (S k) values nan) st1
  end.

(** A window of no row holds no observation: every row is NaN. *)
Definition rolling_mean (window min_periods : nat) (xs : Series) : Series :=
  map (fun i =>
         match window with
         | O => nan
         | S _ => calc_mean min_periods (roll_mean_state window (prep_values xs) i)
         end)
      (seq 0 (length xs)).

(** [s.ewm(alpha, min_periods).mean()] with pandas' defaults [adjust=True],
    [ignore_na=False]: the running state of the weighted mean of pandas'
    kernel [ewm]. *)
Record ewm_state := mk_ewm { weighted : float; old_wt : float; nobs : nat }.

Definition ewm_step (old_wt_factor new_wt : float) (st : ewm_state) (cur : float) : ewm_state :=
  let is_observation := negb (F64.is_nan cur) in
  let nobs' := (nobs st + (if is_observation then 1 else 0))%nat in
  if negb (F64.is_nan (weighted st)) then
    let ow := old_wt st * old_wt_factor in
    if is_observation then
      let w := if negb (weighted st =? cur)
               then (ow * weighted st + new_wt * cur) / (ow + new_wt)
               else weighted st in
      mk_ewm w (ow + new_wt) nobs'
    else mk_ewm (weighted st) ow nobs'
  else if is_observation then mk_ewm cur (old_wt st) nobs'
  else mk_ewm (weighted st) (old_wt st) nobs'.

Definition ewm_out (minp : nat) (st : ewm_state) : float :=
  if (minp <=? nobs st)%nat then weighted st else nan.

Fixpoint ewm_scan (old_wt_factor new_wt : float) (minp : nat) (st : ewm_state) (xs : Series) : Series :=
  match xs with
  | [] => []
  | cur :: rest =>
      let st' := ewm_step old_wt_factor new_wt st cur in
      ewm_out minp st' :: ewm_scan old_wt_factor new_wt minp st' rest
  end.

Definition ewm_mean (alpha : float) (min_periods : nat) (xs : Series) : Series :=
  let com := (1 - alpha) / alpha in
  let alpha' := 1 / (1 + com) in
  let old_wt_factor := 1 - alpha' in
  let minp := Nat.max min_periods 1 in
  match prep_values xs with
  | [] => []
  | x0 :: rest =>
      let st0 := mk_ewm x0 1 (if F64.is_nan x0 then 0 else 1) in
      ewm_out minp st0 :: ewm_scan old_wt_factor 1 minp st0 rest
  end.

(** [s.ewm(span, adjust=False).mean()], pandas' recursive form: the new
    value weighs [alpha = 2 / (span + 1)], computed as pandas does from the
    centre of mass [(span - 1) / 2]; the old weight restarts at 1 after each
    observation; [min_periods] is 0, so a row is defined once one observation
    was seen.  With a centre of mass of exactly 1 (a span of 3) the kernel
    takes the new weight as [1 - old_wt], which differs from [alpha] after
    missing rows. *)
Definition ewm_step_noadjust (com old_wt_factor alpha : float) (st : ewm_state) (cur : float) : ewm_state :=
  let is_observation := negb (F64.is_nan cur) in
  let nobs' := (nobs st + (if is_observation then 1 else 0))%nat in
  if negb (F64.is_nan (weighted st)) then
    let ow := old_wt st * old_wt_factor in
    if is_observation then
      let new_wt := if com =? 1 then 1 - ow else alpha in
      let w := if negb (weighted st =? cur)
               then (ow * weighted st + new_wt * cur) / (ow + new_wt)
               else weighted st in
      mk_ewm w 1 nobs'
    else mk_ewm (weighted st) ow nobs'
  else if is_observation then mk_ewm cur (old_wt st) nobs'
  else mk_ewm (weighted st) (old_wt st) nobs'.

Fixpoint ewm_scan_noadjust (com old_wt_factor alpha : float) (minp : nat) (st : ewm_state) (xs : Series) : Series :=
  match xs with
  | [] => []
  | cur :: rest =>
      let st' := ewm_step_noadjust com old_wt_factor alpha st cur in
      ewm_out minp st' :: ewm_scan_noadjust com old_wt_factor alpha minp st' rest
  end.

(** [s.shift(-1)]: every value moves one row up, the last row gets NaN. *)
Definition shift_up (xs : Series) : Series :=
  match xs with
  | [] => []
  | _ :: rest => rest ++ [nan]
  end.

(** [s.shift(periods)] for [periods >= 0]. *)
Definition shift_by (periods : nat) (xs : Series) : Series :=
  firstn (length xs) (repeat nan periods ++ xs).

(** [s.pct_change(periods)]: [s / s.shift(periods) - 1].  (pandas versions
    differ on whether missing values are filled forward first; this is the
    operation on a column without missing values.) *)
Definition pct_change (periods : nat) (xs : Series) : Series :=
  zip_with (fun x prev => x / prev - 1) xs (shift_by periods xs).

(** [s.rolling(window).std()]: the sample standard deviation (one degree of
    freedom less) of the trailing window, NaN while the window holds fewer
    than [window] observations; an infinity counts as missing.  (pandas
    updates the variance incrementally; the last digits of a defined row can
    differ from this two-pass formula, which fixes the rows that are NaN and
    nothing more precise than that.) *)
Definition sample_std (obs : Series) : float :=
  let n := F64.of_nat (length obs) in
  let mean := sum obs / n in
  let ssq := fold_left (fun acc x => acc + (x - mean) * (x - mean)) obs 0 in
  sqrt (ssq / (n - 1)).

Definition rolling_std (window : nat) (xs : Series) : Series :=
  map (fun i =>
         let obs := observations (window_at window i (prep_values xs)) in
         if (window <=? length obs)%nat && (0 <? length obs)%nat
         then sample_std obs
         else nan)
      (seq 0 (length xs)).

Definition ewm_mean_span_noadjust (span : positive) (xs : Series) : Series :=
  let com := F64.of_nat (Pos.to_nat span - 1) / 2 in
  let alpha := 1 / (1 + com) in
  let old_wt_factor := 1 - alpha in
  let minp := Nat.max 0 1 in
  match prep_values xs with
  | [] => []
  | x0 :: rest =>
      let st0 := mk_ewm x0 1 (if F64.is_nan x0 then 0 else 1) in
      ewm_out minp st0 :: ewm_scan_noadjust com old_wt_factor alpha minp st0 rest
  end.

End Pandas.

(** ** indicators.py *)

Module Indicators.
Import Pandas.

(** [calculate_sma]: [series.rolling(window=window, min_periods=window).mean()].
    A window is a positive integer (pandas rejects the others). *)
Definition calculate_sma (series : Series) (window : positive) : Series :=
  rolling_mean (Pos.to_nat window) (Pos.to_nat window) series.

(** [calculate_rsi].  [1 / period] is Python's true division of two integers;
    a period is a positive integer. *)
Definition calculate_rsi (series : Series) (period : positive) : Series :=
  let delta := diff series in
  let gain := clip_lower 0 delta in
  let loss := neg (clip_upper 0 delta) in
  let avg_gain := ewm_mean (1 / F64.of_nat (Pos.to_nat period)) (Pos.to_nat period) gain in
  let avg_loss := ewm_mean (1 / F64.of_nat (Pos.to_nat period)) (Pos.to_nat period) loss in
  let rs := zip_with div avg_gain avg_loss in
  let rsi := map (fun r => 100 - (100 / (1 + r))) rs in
  rsi.

(** The intermediate series of [calculate_rsi], by name. *)
Definition rsi_gain (series : Series) : Series := clip_lower 0 (diff series).
Definition rsi_loss (series : Series) : Series := neg (clip_upper 0 (diff series)).
Definition rsi_avg_gain (series : Series) (period : positive) : Series :=
  ewm_mean (1 / F64.of_nat (Pos.to_nat period)) (Pos.to_nat period) (rsi_gain series).
Definition rsi_avg_loss (series : Series) (period : positive) : Series :=
  ewm_mean (1 / F64.of_nat (Pos.to_nat period)) (Pos.to_nat period) (rsi_loss series).

(** The last two lines of [calculate_rsi] on one row. *)
Definition rsi_of (avg_gain avg_loss : float) : float :=
  let rs := avg_gain / avg_loss in
  100 - (100 / (1 + rs)).

(** [calculate_ema]: [series.ewm(span=window, adjust=False).mean()]. *)
Definition calculate_ema (series : Series) (window : positive) : Series :=
  ewm_mean_span_noadjust window series.

(** [calculate_macd]: the MACD line, the signal line and the histogram. *)
Definition calculate_macd (series : Series) (fast slow signal : positive)
  : Series * Series * Series :=
  let ema_fast := calculate_ema series fast in
  let ema_slow := calculate_ema series slow in
  let macd_line := zip_with sub ema_fast ema_slow in
  let signal_line := ewm_mean_span_noadjust signal macd_line in
  let histogram := zip_with sub macd_line signal_line in
  (macd_line, signal_line, histogram).

End Indicators.

(** ** strategy.py *)

Module Strategy.
Import Pandas Indicators.

(** One row of the price table: the index label (the trading date, as a day
    number) and the columns the program reads. *)
Record Bar := mkBar { date : Z; Close : float; Volume : float }.

(** One row of the table [generate_signals] returns: the input row and the
    columns added to it. *)
Record SignaledBar := mkSignaledBar {
  bar : Bar;
  rsi : float;
  sma_short : float;
  sma_long : float;
  ma_diff : float;
  ma_diff_prev : float;
  signal : Z
}.

(** The columns [generate_signals] computes from [df["Close"]]. *)
Section Columns.
Variable df : list Bar.
Variables rsi_period short_window long_window : positive.

Definition col_close : Series := map Close df.
Definition col_rsi : Series := calculate_rsi col_close rsi_period.
Definition col_sma_short : Series := calculate_sma col_close short_window.
Definition col_sma_long : Series := calculate_sma col_close long_window.
Definition col_ma_diff : Series := zip_with sub col_sma_short col_sma_long.
Definition col_ma_diff_prev : Series := shift col_ma_diff.
(** [(df["rsi"] < 30) & (df["ma_diff"] > 0)] *)
Definition buy_conditions : list bool :=
  zip_with andb (map (fun r => r <? 30) col_rsi)
                (map (fun d => F64.gtb d 0) col_ma_diff).
(** [df["signal"] = 0; df.loc[buy_conditions, "signal"] = 1] *)
Definition col_signal : list Z :=
  map (fun c : bool => if c then 1%Z else 0%Z) buy_conditions.

(** The rows of the copy of [df] with the new columns, from row [i] on. *)
Fixpoint with_columns (i : nat) (rows : list Bar) : list SignaledBar :=
  match rows with
  | [] => []
  | b :: rest =>
      mkSignaledBar b (nth i col_rsi nan) (nth i col_sma_short nan)
                    (nth i col_sma_long nan) (nth i col_ma_diff nan)
                    (nth i col_ma_diff_prev nan) (nth i col_signal 0%Z)
      :: with_columns (S i) rest
  end.

(** [generate_signals] *)
Definition generate_signals : list SignaledBar := with_columns 0 df.
End Columns.

(** A closed round trip, as appended to [trades].  [entry_date] is the
    variable of that name, [None] until the first entry. *)
Record Trade := mkTrade {
  entry_date : option Z;
  exit_date : Z;
  entry_price : float;
  exit_price : float;
  shares : float;
  pnl : float;
  pnl_pct : float
}.

(** The local variables of [backtest_signals] that the loop updates. *)
Record BtState := mkBt {
  st_trades : list Trade;
  st_in_position : bool;
  st_entry_price : float;
  st_entry_date : option Z;
  st_shares : float;
  st_capital : float
}.

Definition bt_init (initial_capital : float) : BtState :=
  mkBt [] false 0 None 0 initial_capital.

(** The body of [for i in range(len(df))]; [row = df.iloc[i]].  Every column
    is numeric, so the cells are NumPy [float64] values: a division by zero
    gives an infinity or NaN and raises nothing.  The entry branch ends with
    [continue]. *)
Definition loop_body (df : list SignaledBar) (rsi_exit : float) (st : BtState) (i : nat) : BtState :=
  match nth_error df i with
  | None => st
  | Some row =>
      let date := date (bar row) in
      let price := Close (bar row) in
      if negb (st_in_position st) && (signal row =? 1)%Z then
        mkBt (st_trades st) true price (Some date) (st_capital st / price) (st_capital st)
      else if st_in_position st then
        let rsi_val := rsi row in
        let cross_down := F64.geb (ma_diff_prev row) 0 && (ma_diff row <? 0) in
        let overbought := F64.gtb rsi_val rsi_exit in
        if cross_down || overbought || (i =? length df - 1)%nat then
          let exit_price := price in
          let exit_date := date in
          let pnl := (exit_price - st_entry_price st) * st_shares st in
          let pnl_pct := pnl / (st_entry_price st * st_shares st) in
          mkBt (st_trades st ++
                  [mkTrade (st_entry_date st) exit_date (st_entry_price st) exit_price
                           (st_shares st) pnl pnl_pct])
               false 0 (st_entry_date st) 0 (st_capital st + pnl)
        else st
      else st
  end.

(** The state after the first [k] iterations of the loop. *)
Definition run_upto (df : list SignaledBar) (initial_capital rsi_exit : float) (k : nat) : BtState :=
  fold_left (loop_body df rsi_exit) (seq 0 k) (bt_init initial_capital).

Definition run_loop (df : list SignaledBar) (initial_capital rsi_exit : float) : BtState :=
  run_upto df initial_capital rsi_exit (length df).

Record Summary := mkSummary {
  total_trades : nat;
  wins : nat;
  losses : nat;
  win_rate : float;
  cumulative_return_pct : float
}.

(** [int((trade_df["pnl"] > 0).sum())] and [int((trade_df["pnl"] <= 0).sum())] *)
Definition count_wins (trades : list Trade) : nat :=
  length (filter (fun t => F64.gtb (pnl t) 0) trades).
Definition count_losses (trades : list Trade) : nat :=
  length (filter (fun t => pnl t <=? 0) trades).

(** [trade_df["pnl_pct"] = trade_df["pnl_pct"] * 100] *)
Definition scale_pnl_pct (t : Trade) : Trade :=
  mkTrade (entry_date t) (exit_date t) (entry_price t) (exit_price t)
          (shares t) (pnl t) (pnl_pct t * 100).

Inductive exn := ZeroDivisionError.

Inductive result (A : Type) :=
| Ok (a : A)
| Raise (e : exn).
Arguments Ok {A} a.
Arguments Raise {A} e.

(** [capital / initial_capital] in the summary.  [capital] is the Python float
    [initial_capital] until the first exit adds a NumPy [float64] to it; the
    division of two Python floats raises on a zero divisor, NumPy's returns
    an infinity or NaN. *)
Definition capital_ratio (trades : list Trade) (capital initial_capital : float) : result float :=
  match trades with
  | [] => if initial_capital =? 0 then Raise ZeroDivisionError
          else Ok (capital / initial_capital)
  | _ :: _ => Ok (capital / initial_capital)
  end.

(** [trade_df.empty] *)
Definition empty (trade_df : list Trade) : bool :=
  match trade_df with [] => true | _ :: _ => false end.

(** The [summary] dictionary, given the value of [capital / initial_capital]. *)
Definition summarize (trade_df : list Trade) (ratio : float) : Summary :=
  mkSummary (length trade_df)
            (if negb (empty trade_df) then count_wins trade_df else 0%nat)
            (if negb (empty trade_df) then count_losses trade_df else 0%nat)
            (if negb (empty trade_df)
             then F64.of_nat (count_wins trade_df) / F64.of_nat (length trade_df)
             else 0)
            ((ratio - 1) * 100).

(** [trade_df], the table of the closed trades, and [capital] after the loop. *)
Definition trade_table (df : list SignaledBar) (initial_capital rsi_exit : float) : list Trade :=
  map scale_pnl_pct (st_trades (run_loop df initial_capital rsi_exit)).

Definition final_capital (df : list SignaledBar) (initial_capital rsi_exit : float) : float :=
  st_capital (run_loop df initial_capital rsi_exit).

(** [backtest_signals]: the trade table and the summary. *)
Definition backtest_signals (df : list SignaledBar) (initial_capital rsi_exit : float)
  : result (list Trade * Summary) :=
  let trade_df := trade_table df initial_capital rsi_exit in
  match capital_ratio trade_df (final_capital df initial_capital rsi_exit) initial_capital with
  | Raise e => Raise e
  | Ok ratio => Ok (trade_df, summarize trade_df ratio)
  end.

(** *** Observations of a run *)

(** Iteration [i] takes the entry branch: the loop reaches bar [i] flat and
    the bar's [signal] is 1. *)
Definition entered (df : list SignaledBar) (initial_capital rsi_exit : float) (i : nat) : bool :=
  match nth_error df i with
  | None => false
  | Some row =>
      negb (st_in_position (run_upto df initial_capital rsi_exit i)) && (signal row =? 1)%Z
  end.

(** The branches of the loop body, named: the exit test of iteration [i], the
    state after an entry, the trade an exit appends, the state after an exit. *)
Definition exit_now (df : list SignaledBar) (rsi_exit : float) (row : SignaledBar) (i : nat) : bool :=
  F64.geb (ma_diff_prev row) 0 && (ma_diff row <? 0)
  || F64.gtb (rsi row) rsi_exit
  || (i =? length df - 1)%nat.

Definition opened (st : BtState) (row : SignaledBar) : BtState :=
  mkBt (st_trades st) true (Close (bar row)) (Some (date (bar row)))
       (st_capital st / Close (bar row)) (st_capital st).

Definition closing_trade (st : BtState) (row : SignaledBar) : Trade :=
  mkTrade (st_entry_date st) (date (bar row)) (st_entry_price st) (Close (bar row))
          (st_shares st)
          ((Close (bar row) - st_entry_price st) * st_shares st)
          ((Close (bar row) - st_entry_price st) * st_shares st
           / (st_entry_price st * st_shares st)).

Definition closed (st : BtState) (row : SignaledBar) : BtState :=
  mkBt (st_trades st ++ [closing_trade st row]) false 0 (st_entry_date st) 0
       (st_capital st + pnl (closing_trade st row)).

(** The four ways through the loop body on bar [row] at iteration [i]. *)
Inductive body_case (df : list SignaledBar) (rsi_exit : float)
          (st : BtState) (i : nat) (row : SignaledBar) : BtState -> Prop :=
| body_enter :
    st_in_position st = false -> signal row = 1%Z ->
    body_case df rsi_exit st i row (opened st row)
| body_idle :
    st_in_position st = false -> signal row <> 1%Z ->
    body_case df rsi_exit st i row st
| body_exit :
    st_in_position st = true -> exit_now df rsi_exit row i = true ->
    body_case df rsi_exit st i row (closed st row)
| body_hold :
    st_in_position st = true -> exit_now df rsi_exit row i = false ->
    body_case df rsi_exit st i row st.

(** The index label of row [i]. *)
Definition date_at (df : list SignaledBar) (i : nat) : option Z :=
  option_map (fun row => date (bar row)) (nth_error df i).

(** [capital] after the exits of [trades], each adding its [pnl] in turn. *)
Definition capital_after (initial_capital : float) (trades : list Trade) : float :=
  fold_left add (map pnl trades) initial_capital.

(** The index is strictly increasing. *)
Definition increasing_dates (df : list SignaledBar) : Prop :=
  forall i j ri rj, (i < j)%nat ->
    nth_error df i = Some ri -> nth_error df j = Some rj ->
    (date (bar ri) < date (bar rj))%Z.

Definition count_nan_pnl (trades : list Trade) : nat :=
  length (filter (fun t => F64.is_nan (pnl t)) trades).

End Strategy.

(** ** The simulator as the specification words it

    A single position slot that is [Flat] or [Entered]; one transition per
    bar.  This definition follows the specification's state machine and is
    compared with the loop of [backtest_signals] below. *)

Module Machine.
Import Strategy.

Inductive Position :=
| Flat
| Entered (entry_price : float) (entry_date : Z) (shares : float).

Record Sim := mkSim { pos : Position; capital : float; ledger : list Trade }.

Definition start (initial_capital : float) : Sim := mkSim Flat initial_capital [].

(** (a) trend reversal: [ma_diff] crosses from >= 0 to < 0, where
    [ma_diff_prev] is the indicator set's record of the previous bar's
    [ma_diff]. *)
Definition crosses_down (b : SignaledBar) : bool :=
  F64.geb (ma_diff_prev b) 0 && (ma_diff b <? 0).
(** (b) overbought. *)
Definition overbought (rsi_exit : float) (b : SignaledBar) : bool :=
  F64.gtb (rsi b) rsi_exit.

Definition close_trade (entry_price : float) (entry_date : Z) (shares : float) (b : SignaledBar) : Trade :=
  let pnl := (Close (bar b) - entry_price) * shares in
  mkTrade (Some entry_date) (date (bar b)) entry_price (Close (bar b)) shares
          pnl (pnl / (entry_price * shares)).

(** One bar.  [is_last] is trigger (c): the bar is the last of the sequence. *)
Definition step (rsi_exit : float) (is_last : bool) (b : SignaledBar) (s : Sim) : Sim :=
  match pos s with
  | Flat =>
      if (signal b =? 1)%Z
      then mkSim (Entered (Close (bar b)) (date (bar b)) (capital s / Close (bar b)))
                 (capital s) (ledger s)
      else s
  | Entered entry_price entry_date shares =>
      if crosses_down b || overbought rsi_exit b || is_last
      then let t := close_trade entry_price entry_date shares b in
           mkSim Flat (capital s + pnl t) (ledger s ++ [t])
      else s
  end.

Fixpoint run (rsi_exit : float) (bars : list SignaledBar) (s : Sim) : Sim :=
  match bars with
  | [] => s
  | b :: rest =>
      run rsi_exit rest (step rsi_exit (match rest with [] => true | _ => false end) b s)
  end.

(** The loop's variables hold the machine state [s]. *)
Definition holds (st : BtState) (s : Sim) : Prop :=
  st_trades st = ledger s /\
  st_capital st = capital s /\
  match pos s with
  | Flat => st_in_position st = false
  | Entered entry_price entry_date shares =>
      st_in_position st = true /\ st_entry_price st = entry_price /\
      st_entry_date st = Some entry_date /\ st_shares st = shares
  end.

End Machine.

(** ** The bars a trade spans *)

Module Spans.
Import Strategy.

(** The trade [t] was opened on bar [a], a bar whose [signal] is 1, and closed
    on bar [b]: the first bar after [a] on which the exit test fires. *)
Definition closes (df : list SignaledBar) (rsi_exit : float) (span : nat * nat) (t : Trade) : Prop :=
  (fst span < snd span)%nat /\
  exists ra rb,
    nth_error df (fst span) = Some ra /\ nth_error df (snd span) = Some rb /\
    signal ra = 1%Z /\
    entry_date t = Some (date (bar ra)) /\ entry_price t = Close (bar ra) /\
    exit_date t = date (bar rb) /\ exit_price t = Close (bar rb) /\
    exit_now df rsi_exit rb (snd span) = true /\
    forall c rc, (fst span < c < snd span)%nat -> nth_error df c = Some rc ->
                 exit_now df rsi_exit rc c = false.

(** The spans follow one another from bar [lo] on without sharing a bar. *)
Fixpoint disjoint_from (lo : nat) (spans : list (nat * nat)) : Prop :=
  match spans with
  | [] => True
  | s :: rest => (lo <= fst s)%nat /\ (fst s < snd s)%nat /\ disjoint_from (S (snd s)) rest
  end.

(** The first bar after the last span. *)
Definition next_free (lo : nat) (spans : list (nat * nat)) : nat :=
  fold_left (fun _ s => S (snd s)) spans lo.

End Spans.

(** ** Price series without a fall *)

Module Trend.
Import Pandas Strategy.

(** A zero of either sign, or NaN. *)
Definition zero_or_nan (x : float) : bool := (x =? 0) || F64.is_nan x.

(** No row closes below the row before it: no [delta] of [calculate_rsi] is
    negative. *)
Definition never_falls (df : list Bar) : Prop :=
  Forall (fun d => (d <? 0) = false) (diff (map Close df)).

End Trend.

(** ** data_fetch.py

    The two download functions talk to a remote service.  What the service
    answers is an input of the model: [Remote] gives, for a symbol and the
    number of calls made before, the outcome of the next call, where a call
    is the body of the [try] block of one attempt.  The effects the functions
    leave are counted in [Io]. *)

Module DataFetch.
Import Strategy.

Definition symbol := String.string.

(** A downloaded table: [pd.DataFrame()], which has no row and no column, or
    a table with the [Close] and [Volume] columns. *)
Inductive Frame :=
| Empty
| Table (rows : list Bar).

Inductive fetch_exn := RequestException | OtherException | ImportError.

Inductive Outcome :=
| Returned (data : Frame)
| Failed (e : fetch_exn).

Record Remote := mkRemote {
  yf_download : symbol -> nat -> Outcome;
  csv_download : symbol -> nat -> Outcome
}.

Record Io := mkIo { yf_calls : nat; csv_calls : nat; slept : nat }.

Definition MAX_RETRIES : nat := 3.
Definition RETRY_DELAY_SECONDS : nat := 5.

Definition sleep (io : Io) : Io :=
  mkIo (yf_calls io) (csv_calls io) (slept io + RETRY_DELAY_SECONDS).

(** [for attempt in range(MAX_RETRIES)] of [_download_via_yfinance]: every
    exception is retried after a sleep, the one of the last attempt is
    raised again. *)
Fixpoint yfinance_attempts (remote : Remote) (sym : symbol) (attempts : list nat) (io : Io)
  : Io * Outcome :=
  match attempts with
  | [] => (io, Returned Empty)
  | attempt :: rest =>
      let io1 := mkIo (S (yf_calls io)) (csv_calls io) (slept io) in
      match yf_download remote sym (yf_calls io) with
      | Returned data => (io1, Returned data)
      | Failed e =>
          if (attempt <? MAX_RETRIES - 1)%nat
          then yfinance_attempts remote sym rest (sleep io1)
          else (io1, Failed e)
      end
  end.

(** [_download_via_yfinance]; [has_yfinance] is [_HAS_YFINANCE]. *)
Definition download_via_yfinance (has_yfinance : bool) (remote : Remote) (sym : symbol) (io : Io)
  : Io * Outcome :=
  if negb has_yfinance then (io, Failed ImportError)
  else yfinance_attempts remote sym (seq 0 MAX_RETRIES) io.

(** [for attempt in range(MAX_RETRIES)] of [_download_via_csv]: only a
    [RequestException] is caught. *)
Fixpoint csv_attempts (remote : Remote) (sym : symbol) (attempts : list nat) (io : Io)
  : Io * Outcome :=
  match attempts with
  | [] => (io, Returned Empty)
  | attempt :: rest =>
      let io1 := mkIo (yf_calls io) (S (csv_calls io)) (slept io) in
      match csv_download remote sym (csv_calls io) with
      | Returned data => (io1, Returned data)
      | Failed RequestException =>
          if (attempt <? MAX_RETRIES - 1)%nat
          then csv_attempts remote sym rest (sleep io1)
          else (io1, Failed RequestException)
      | Failed e => (io1, Failed e)
      end
  end.

(** [_download_via_csv] *)
Definition download_via_csv (remote : Remote) (sym : symbol) (io : Io) : Io * Outcome :=
  csv_attempts remote sym (seq 0 MAX_RETRIES) io.

(** A dict in insertion order; [results[sym] = df]. *)
Fixpoint dict_set {V : Type} (k : symbol) (v : V) (d : list (symbol * V)) : list (symbol * V) :=
  match d with
  | [] => [(k, v)]
  | (k', v') :: rest =>
      if String.eqb k' k then (k', v) :: rest else (k', v') :: dict_set k v rest
  end.

(** The body of [for sym in symbols] of [fetch_stock_data]: the table stored
    for [sym]. *)
Definition fetch_one (has_yfinance prefer_yfinance : bool) (remote : Remote) (sym : symbol) (io : Io)
  : Io * Frame :=
  let '(io1, first) :=
    if prefer_yfinance && has_yfinance
    then download_via_yfinance has_yfinance remote sym io
    else download_via_csv remote sym io in
  match first with
  | Returned df => (io1, df)
  | Failed _ =>
      if prefer_yfinance && has_yfinance then
        match download_via_csv remote sym io1 with
        | (io2, Returned df) => (io2, df)
        | (io2, Failed _) => (io2, Empty)
        end
      else (io1, Empty)
  end.

Fixpoint fetch_loop (has_yfinance prefer_yfinance : bool) (remote : Remote)
         (symbols : list symbol) (io : Io) (results : list (symbol * Frame))
  : Io * list (symbol * Frame) :=
  match symbols with
  | [] => (io, results)
  | sym :: rest =>
      let '(io1, df) := fetch_one has_yfinance prefer_yfinance remote sym io in
      fetch_loop has_yfinance prefer_yfinance remote rest io1 (dict_set sym df results)
  end.

(** [fetch_stock_data] *)
Definition fetch_stock_data (has_yfinance prefer_yfinance : bool) (remote : Remote)
           (symbols : list symbol) (io : Io) : Io * list (symbol * Frame) :=
  fetch_loop has_yfinance prefer_yfinance remote symbols io [].

Definition is_failed (o : Outcome) : bool :=
  match o with Failed _ => true | Returned _ => false end.

(** The one failure [_download_via_csv] catches. *)
Definition retryable (o : Outcome) : bool :=
  match o with Failed RequestException => true | _ => false end.

(** [d.get(k)] *)
Fixpoint dict_get {V : Type} (k : symbol) (d : list (symbol * V)) : option V :=
  match d with
  | [] => None
  | (k', v) :: rest => if String.eqb k' k then Some v else dict_get k rest
  end.

End DataFetch.

(** ** main.py: the computation of [run_demo]

    [run_demo] with [log_to_sheets=False].  The machine-learning block sits in
    a [try] that catches every exception and only adds keys to the summary,
    and the notifications are sent in [try] blocks of their own: none of
    them changes the trades, the summary counts or whether the run ends, so
    they are left out.  The completion message is modelled by the numbers it
    reports. *)

Module Demo.
Import Strategy DataFetch.

Inductive demo_exn := KeyError | BacktestError (e : exn).

Inductive attempt (A : Type) :=
| Done (a : A)
| Abort (e : demo_exn).
Arguments Done {A} a.
Arguments Abort {A} e.

(** [df.dropna(subset=["Close", "Volume"])]: pandas raises [KeyError] when the
    table lacks a column of [subset]. *)
Definition dropna (df : Frame) : attempt (list Bar) :=
  match df with
  | Empty => Abort KeyError
  | Table rows =>
      Done (filter (fun b => negb (F64.is_nan (Close b)) && negb (F64.is_nan (Volume b))) rows)
  end.

(** One pass of [for sym, df in data.items()]: the trades and the summary of
    one symbol, with the default parameters. *)
Definition process_symbol (df : Frame) : attempt (list Trade * Summary) :=
  match dropna df with
  | Abort e => Abort e
  | Done rows =>
      match backtest_signals (generate_signals rows 14 20 50) 100000 70 with
      | Raise e => Abort (BacktestError e)
      | Ok r => Done r
      end
  end.

(** The loop: [all_trades] and [summary_rows], each row tagged with its symbol. *)
Fixpoint process_all (data : list (symbol * Frame))
         (all_trades : list (symbol * Trade)) (summary_rows : list (symbol * Summary))
  : attempt (list (symbol * Trade) * list (symbol * Summary)) :=
  match data with
  | [] => Done (all_trades, summary_rows)
  | (sym, df) :: rest =>
      match process_symbol df with
      | Abort e => Abort e
      | Done (trades_df, summary) =>
          process_all rest (all_trades ++ map (pair sym) trades_df)
                      (summary_rows ++ [(sym, summary)])
      end
  end.

(** What the completion message reports. *)
Record Completion := mkCompletion {
  msg_total_trades : nat;
  msg_avg_win_rate : float;
  msg_symbols : nat
}.

(** The [try] block of the completion message.  Without a summary row
    [summary_df] has no column, [summary_df['total_trades']] raises and the
    block is left: no message. *)
Definition completion (symbols : list symbol) (summary_rows : list (symbol * Summary))
  : option Completion :=
  match summary_rows with
  | [] => None
  | _ :: _ =>
      let total_trades := list_sum (map (fun r => total_trades (snd r)) summary_rows) in
      let total_wins := list_sum (map (fun r => wins (snd r)) summary_rows) in
      let avg_win_rate :=
        if (0 <? total_trades)%nat
        then (F64.of_nat total_wins / F64.of_nat total_trades) * 100
        else 0 in
      Some (mkCompletion total_trades avg_win_rate (length symbols))
  end.

Record Report := mkReport {
  all_trades : list (symbol * Trade);
  summary_rows : list (symbol * Summary);
  message : option Completion
}.

(** [run_demo] *)
Definition run_demo (has_yfinance : bool) (remote : Remote) (symbols : list symbol) (io : Io)
  : Io * attempt Report :=
  let '(io1, data) := fetch_stock_data has_yfinance true remote symbols io in
  (io1,
   match process_all data [] [] with
   | Abort e => Abort e
   | Done (trades, rows) => Done (mkReport trades rows (completion symbols rows))
   end).

(** A remote whose two services fail on every call for [sym]. *)
Definition unreachable (remote : Remote) (sym : symbol) : Prop :=
  forall n, is_failed (yf_download remote sym n) = true /\
            is_failed (csv_download remote sym n) = true.

End Demo.

(** ** strategy.py on a table as the program holds it

    [generate_signals] reads [df["Close"]] first: on [pd.DataFrame()], the
    table without columns that a failed download stores, that lookup raises
    [KeyError].  An empty table that has its columns is [Table []]. *)

Module Frames.
Import Strategy DataFetch Demo.



End Frames.

(** ** ml_model.py: [prepare_features] *)

Module MlModel.
Import Pandas Indicators Strategy.

(** A row of [df] after all the columns were added. *)
Record FullRow := mkFullRow {
  f_bar : Bar;
  f_rsi : float;
  f_sma10 : float;
  f_sma20 : float;
  f_sma50 : float;
  f_macd_line : float;
  f_macd_signal : float;
  f_macd_hist : float;
  f_rsi_lag1 : float;
  f_macd_hist_lag1 : float;
  f_close_lag1 : float;
  f_roc : float;
  f_volatility : float;
  f_vol_change : float;
  f_vol_sma10 : float;
  f_close_shift : float;
  f_target : Z
}.

Section Columns.
Variable df : list Bar.

Definition m_close : Series := map Close df.
Definition m_volume : Series := map Volume df.
Definition m_rsi : Series := calculate_rsi m_close 14.
Definition m_sma10 : Series := calculate_sma m_close 10.
Definition m_sma20 : Series := calculate_sma m_close 20.
Definition m_sma50 : Series := calculate_sma m_close 50.
Definition m_macd : Series * Series * Series := calculate_macd m_close 12 26 9.
Definition m_macd_line : Series := fst (fst m_macd).
Definition m_macd_signal : Series := snd (fst m_macd).
Definition m_macd_hist : Series := snd m_macd.
Definition m_rsi_lag1 : Series := shift m_rsi.
Definition m_macd_hist_lag1 : Series := shift m_macd_hist.
Definition m_close_lag1 : Series := shift m_close.
Definition m_roc : Series := pct_change 3 m_close.
Definition m_volatility : Series := rolling_std 5 m_close.
Definition m_vol_change : Series := pct_change 1 m_volume.
Definition m_vol_sma10 : Series := rolling_mean 10 10 m_volume.
Definition m_close_shift : Series := shift_up m_close.
(** [(df["close_shift"] > df["Close"] * 1.002).astype(int)] *)
#[warnings="-inexact-float"]
Definition m_target : list Z :=
  zip_with (fun next close => if F64.gtb next (close * 1.002) then 1%Z else 0%Z)
           m_close_shift m_close.

(** The rows of the table, from row [i] on. *)
Fixpoint full_rows (i : nat) (rows : list Bar) : list FullRow :=
  match rows with
  | [] => []
  | b :: rest =>
      mkFullRow b (nth i m_rsi nan) (nth i m_sma10 nan) (nth i m_sma20 nan)
                (nth i m_sma50 nan) (nth i m_macd_line nan) (nth i m_macd_signal nan)
                (nth i m_macd_hist nan) (nth i m_rsi_lag1 nan)
                (nth i m_macd_hist_lag1 nan) (nth i m_close_lag1 nan)
                (nth i m_roc nan) (nth i m_volatility nan) (nth i m_vol_change nan)
                (nth i m_vol_sma10 nan) (nth i m_close_shift nan) (nth i m_target 0%Z)
      :: full_rows (S i) rest
  end.
End Columns.

(** A row that [df.dropna()] drops: some cell of it is NaN. *)
Definition has_nan (r : FullRow) : bool :=
  existsb F64.is_nan
    [Close (f_bar r); Volume (f_bar r); f_rsi r; f_sma10 r; f_sma20 r; f_sma50 r;
     f_macd_line r; f_macd_signal r; f_macd_hist r; f_rsi_lag1 r; f_macd_hist_lag1 r;
     f_close_lag1 r; f_roc r; f_volatility r; f_vol_change r; f_vol_sma10 r;
     f_close_shift r].

(** The fifteen columns of [X], in the order of [feature_cols]. *)
Definition features (r : FullRow) : list float :=
  [f_rsi r; f_sma10 r; f_sma20 r; f_sma50 r; f_macd_line r; f_macd_signal r;
   f_macd_hist r; Volume (f_bar r); f_rsi_lag1 r; f_macd_hist_lag1 r; f_close_lag1 r;
   f_roc r; f_volatility r; f_vol_change r; f_vol_sma10 r].

(** The rows that are left after [df.dropna(inplace=True)]. *)
Definition kept_rows (df : list Bar) : list FullRow :=
  filter (fun r => negb (has_nan r)) (full_rows df 0 df).

(** [prepare_features]: [X] and [y], row by row with the date they share. *)
Definition prepare_features (df : list Bar) : list (Z * list float) * list (Z * Z) :=
  (map (fun r => (date (f_bar r), features r)) (kept_rows df),
   map (fun r => (date (f_bar r), f_target r)) (kept_rows df)).

End MlModel.

(** ** Sample inputs *)

Module Samples.
Import Pandas Indicators Strategy.

Definition mk (d : Z) (c : float) : Bar := mkBar d c 1000.

(** A jump, a slow slide that drags the RSI under 30 while the short average
    stays above the long one, then a rally. *)
Definition slide : list Bar :=
  [mk 1 1; mk 2 1; mk 3 1; mk 4 1; mk 5 100; mk 6 99; mk 7 98; mk 8 97; mk 9 96;
   mk 10 95; mk 11 94; mk 12 93; mk 13 92; mk 14 91; mk 15 120; mk 16 121].

(** A steady rise: the RSI stays at 100. *)
Definition rise : list Bar :=
  [mk 1 10; mk 2 11; mk 3 12; mk 4 13; mk 5 14; mk 6 15].

(** A price that never moves. *)
Definition flat_prices : Series := repeat 100 16.

Definition rising_prices : Series := [1; 2; 3; 4; 5; 6].

Definition falling_prices : Series := [6; 5; 4; 3; 2; 1].

(** Row 11 of the signals of [slide] with periods 2, 2 and 12: the first buy. *)
Definition slide_buy : SignaledBar :=
  Eval vm_compute in
    nth 11 (generate_signals slide 2 2 12) (mkSignaledBar (mk 0 0) 0 0 0 0 0 0).

(** Row 0 of the same table: every indicator is in its warm-up. *)
Definition slide_first : SignaledBar :=
  Eval vm_compute in
    nth 0 (generate_signals slide 2 2 12) (mkSignaledBar (mk 0 0) 0 0 0 0 0 0).

(** Signaled bars given directly: only [Close] and [signal] matter here. *)
Definition sb (d : Z) (c : float) (s : Z) : SignaledBar :=
  mkSignaledBar (mk d c) 50 0 0 0 0 s.

(** The only bar triggers an entry. *)
Definition entry_on_last : list SignaledBar := [sb 1 10 1].


(** An entry and a forced exit at a price of zero. *)
Definition zero_price : list SignaledBar := [sb 1 0 1; sb 2 0 0].

(** Two round trips: a gain closed by an overbought RSI, then a loss closed
    by the last bar. *)
Definition two_trips : list SignaledBar :=
  [sb 1 10 1; mkSignaledBar (mk 2 12) 80 0 0 0 0 0; sb 3 12 1; sb 4 11 0; sb 5 9 0].

End Samples.

(** ** Sample remotes *)

Module FetchSamples.
Import Strategy DataFetch Demo.
Import String.StringSyntax.
Delimit Scope string_scope with string.

(** Both services fail on every call. *)
Definition down : Remote :=
  mkRemote (fun _ _ => Failed OtherException) (fun _ _ => Failed RequestException).


Definition idle : Io := mkIo 0 0 0.

(** Sixty bars of a price that climbs unevenly. *)
Definition sixty_bars : list Bar :=
  map (fun i => mkBar (Z.of_nat i)
                      (F64.of_nat (100 + (i * i) mod 7 + i))
                      (F64.of_nat (1000 + i mod 5)))
      (seq 0 60).

Definition tickers : list symbol := ["TCS.NS"%string; "INFY.NS"%string; "TCS.NS"%string].

End FetchSamples.

(** ** Binary64 lemmas *)

Module F64Facts.
Import F64.

Lemma nan_view (x : float) : is_nan x = true -> Prim2SF x = S754_nan.
Proof.
  unfold is_nan, PrimFloat.is_nan. rewrite FloatAxioms.eqb_spec.
  destruct (Prim2SF x) as [s| s | |s m e]; simpl; try discriminate; auto.
  - destruct s; discriminate.
  - unfold SFeqb, SFcompare. destruct s; rewrite Z.compare_refl, Pos.compare_refl; discriminate.
Qed.

Lemma is_nan_eq (x : float) : is_nan x = true -> x = nan.
Proof.
  intro H. apply Prim2SF_inj. rewrite (nan_view x H). reflexivity.
Qed.

Lemma ltb_nan_l (y : float) : (nan <? y) = false.
Proof. rewrite ltb_spec. reflexivity. Qed.

Lemma ltb_nan_r (x : float) : (x <? nan) = false.
Proof.
  rewrite ltb_spec. change (Prim2SF nan) with S754_nan.
  destruct (Prim2SF x) as [s| s | |s m e]; try destruct s; reflexivity.
Qed.

Lemma leb_nan_l (y : float) : (nan <=? y) = false.
Proof. rewrite leb_spec. reflexivity. Qed.

Lemma leb_nan_r (x : float) : (x <=? nan) = false.
Proof.
  rewrite leb_spec. change (Prim2SF nan) with S754_nan.
  destruct (Prim2SF x) as [s| s | |s m e]; try destruct s; reflexivity.
Qed.

Lemma sub_nan_l (y : float) : nan - y = nan.
Proof. apply Prim2SF_inj. rewrite sub_spec. reflexivity. Qed.

Lemma sub_nan_r (x : float) : x - nan = nan.
Proof.
  apply Prim2SF_inj. rewrite sub_spec. change (Prim2SF nan) with S754_nan.
  destruct (Prim2SF x) as [s| s | |s m e]; reflexivity.
Qed.

(** A number equal to zero is one of the two signed zeros. *)
Lemma zero_view (x : float) : (x =? 0) = true -> x = 0 \/ x = (-0).
Proof.
  rewrite FloatAxioms.eqb_spec. change (Prim2SF 0) with (S754_zero false).
  intro H.
  assert (Hz : exists s, Prim2SF x = S754_zero s).
  { destruct (Prim2SF x) as [s| s | |s m e]; try discriminate.
    - now exists s.
    - destruct s; discriminate.
    - destruct s; discriminate. }
  destruct Hz as [[|] Hs]; [right|left]; apply Prim2SF_inj; rewrite Hs; reflexivity.
Qed.

(** A number above zero is a positive finite number or [+infinity]. *)
Lemma pos_view (x : float) :
  (0 <? x) = true ->
  Prim2SF x = S754_infinity false \/ exists m e, Prim2SF x = S754_finite false m e.
Proof.
  rewrite ltb_spec. change (Prim2SF 0) with (S754_zero false).
  destruct (Prim2SF x) as [s| s | |s m e]; try discriminate.
  - destruct s; [discriminate | now left].
  - destruct s; [discriminate | right; now exists m, e].
Qed.

(** Trichotomy against zero, as the summary statistics use it. *)
Lemma gt0_le0_nan (x : float) :
  (gtb x 0, x <=? 0, is_nan x) = (true, false, false) \/
  (gtb x 0, x <=? 0, is_nan x) = (false, true, false) \/
  (gtb x 0, x <=? 0, is_nan x) = (false, false, true).
Proof.
  unfold gtb, is_nan, PrimFloat.is_nan.
  rewrite ltb_spec, leb_spec, FloatAxioms.eqb_spec. change (Prim2SF 0) with (S754_zero false).
  destruct (Prim2SF x) as [s| s | |s m e]; simpl.
  - right; left; reflexivity.
  - destruct s; [right; left | left]; reflexivity.
  - right; right; reflexivity.
  - unfold SFeqb, SFltb, SFleb, SFcompare.
    destruct s; rewrite Z.compare_refl, Pos.compare_refl; [right; left | left]; reflexivity.
Qed.

Lemma sub_nan_any (x y : float) :
  is_nan x = true \/ is_nan y = true -> x - y = nan.
Proof.
  intros [H | H]; rewrite (is_nan_eq _ H); [apply sub_nan_l | apply sub_nan_r].
Qed.

(** The quotient of a number above zero by a zero is an infinity. *)
Lemma div_pos_zero (g l : float) :
  (0 <? g) = true -> (l =? 0) = true -> g / l = infinity \/ g / l = neg_infinity.
Proof.
  intros Hg Hl.
  assert (Hq : Prim2SF (g / l) = S754_infinity false \/ Prim2SF (g / l) = S754_infinity true).
  { rewrite div_spec.
    destruct (zero_view l Hl) as [-> | ->];
      [change (Prim2SF 0) with (S754_zero false)
      | change (Prim2SF (-0)) with (S754_zero true)];
      destruct (pos_view g Hg) as [-> | (m & e & ->)]; simpl; auto. }
  destruct Hq as [Hq | Hq]; [left | right]; apply Prim2SF_inj; rewrite Hq; reflexivity.
Qed.

Lemma finite_nonzero_view (x : float) :
  finite_nonzero x = true -> exists s m e, Prim2SF x = S754_finite s m e.
Proof.
  unfold finite_nonzero, is_finite, PrimFloat.is_nan, is_infinity.
  rewrite !FloatAxioms.eqb_spec, abs_spec.
  change (Prim2SF 0) with (S754_zero false).
  change (Prim2SF infinity) with (S754_infinity false).
  destruct (Prim2SF x) as [s| s | |s m e]; simpl; try discriminate.
  - destruct s; discriminate.
  - intros _. now exists s, m, e.
Qed.

Lemma finite_nonzero_not_zero (x : float) : finite_nonzero x = true -> (x =? 0) = false.
Proof.
  unfold finite_nonzero. intro H. apply andb_prop in H. destruct H as [_ H].
  now apply negb_true_iff in H.
Qed.

(** The quotient of a finite mantissa by itself: 2^53 at exponent -53, exactly. *)
Lemma div_core_self m e :
  SFdiv_core_binary prec emax (Zpos m) e (Zpos m) e
  = (9007199254740992%Z, (-53)%Z, loc_Exact).
Proof.
  unfold SFdiv_core_binary.
  replace (Zdigits2 (Z.pos m) + e - (Zdigits2 (Z.pos m) + e))%Z with 0%Z by lia.
  replace (e - e)%Z with 0%Z by lia.
  change (Z.min (fexp prec emax 0) 0) with (-53)%Z.
  change (0 - -53)%Z with 53%Z. cbv iota.
  rewrite Z.shiftl_mul_pow2 by lia.
  assert (H : Z.div_eucl (Z.pos m * 2 ^ 53) (Z.pos m) = (2 ^ 53, 0)%Z).
  { pose proof (Z.div_eucl_eq (Z.pos m * 2 ^ 53) (Z.pos m)) as Heq.
    pose proof (Z.mod_pos_bound (Z.pos m * 2 ^ 53) (Z.pos m)) as Hb.
    unfold Z.modulo in Hb.
    destruct (Z.div_eucl (Z.pos m * 2 ^ 53) (Z.pos m)) as [q r].
    assert (Hm : (0 < Z.pos m)%Z) by lia.
    specialize (Heq ltac:(lia)). specialize (Hb Hm).
    assert (q = 2 ^ 53)%Z by nia.
    subst q. f_equal. nia. }
  rewrite H.
  unfold new_location.
  destruct (Z.even (Z.pos m)); reflexivity.
Qed.

(** A finite non-zero number divided by itself is exactly 1. *)
Lemma div_self (x : float) : finite_nonzero x = true -> x / x = 1.
Proof.
  intro H. destruct (finite_nonzero_view x H) as (s & m & e & Hx).
  apply Prim2SF_inj. rewrite div_spec, Hx.
  unfold SF64div, SFdiv. rewrite div_core_self.
  destruct s; reflexivity.
Qed.


End F64Facts.

(** ** Lemmas on the pandas operations *)

Module PandasFacts.
Import Pandas.

Lemma zip_with_length {A B C} (f : A -> B -> C) xs ys :
  length xs = length ys -> length (zip_with f xs ys) = length xs.
Proof.
  revert ys; induction xs as [|x xs IH]; intros [|y ys] H; simpl in *; try congruence.
  f_equal; apply IH; congruence.
Qed.

Lemma zip_with_nth {A B C} (f : A -> B -> C) xs ys i dx dy dz :
  (i < length xs)%nat -> (i < length ys)%nat ->
  nth i (zip_with f xs ys) dz = f (nth i xs dx) (nth i ys dy).
Proof.
  revert ys i; induction xs as [|x xs IH]; intros [|y ys] [|i] Hx Hy; simpl in *; try lia; auto.
  apply IH; lia.
Qed.

Lemma map_zip_with {A B C D} (f : C -> D) (g : A -> B -> C) xs ys :
  map f (zip_with g xs ys) = zip_with (fun x y => f (g x y)) xs ys.
Proof.
  revert ys; induction xs as [|x xs IH]; intros [|y ys]; simpl; try reflexivity.
  now rewrite IH.
Qed.

Lemma shift_length xs : length (shift xs) = length xs.
Proof.
  unfold shift. rewrite length_firstn. simpl. lia.
Qed.

Lemma shift_nth_0 xs : nth 0 (shift xs) nan = nan.
Proof. destruct xs; reflexivity. Qed.

Lemma shift_nth_S xs i :
  (S i < length xs)%nat -> nth (S i) (shift xs) nan = nth i xs nan.
Proof.
  intro H. unfold shift.
  rewrite nth_firstn.
  assert (E : (S i <? length xs)%nat = true) by (apply Nat.ltb_lt; lia).
  rewrite E. reflexivity.
Qed.

Lemma diff_length xs : length (diff xs) = length xs.
Proof. unfold diff. apply zip_with_length. now rewrite shift_length. Qed.

Lemma clip_lower_length lo xs : length (clip_lower lo xs) = length xs.
Proof. apply length_map. Qed.

Lemma clip_upper_length hi xs : length (clip_upper hi xs) = length xs.
Proof. apply length_map. Qed.

Lemma neg_length xs : length (neg xs) = length xs.
Proof. apply length_map. Qed.

Lemma prep_values_length xs : length (prep_values xs) = length xs.
Proof. apply length_map. Qed.

Lemma prep_value_nan : prep_value nan = nan.
Proof. reflexivity. Qed.

Lemma prep_values_nth xs i : nth i (prep_values xs) nan = prep_value (nth i xs nan).
Proof. unfold prep_values. now rewrite <- prep_value_nan at 1; rewrite map_nth. Qed.

Lemma prep_values_app xs ys : prep_values (xs ++ ys) = prep_values xs ++ prep_values ys.
Proof. apply map_app. Qed.

Lemma rolling_mean_length w m xs : length (rolling_mean w m xs) = length xs.
Proof. unfold rolling_mean. now rewrite length_map, length_seq. Qed.

Lemma ewm_scan_length f nw minp st xs : length (ewm_scan f nw minp st xs) = length xs.
Proof.
  revert st; induction xs as [|x xs IH]; intro st; simpl; auto.
Qed.

Lemma ewm_mean_length alpha m xs : length (ewm_mean alpha m xs) = length xs.
Proof.
  unfold ewm_mean. destruct xs as [|x xs]; simpl; auto.
  now rewrite ewm_scan_length, prep_values_length.
Qed.

Lemma nth_map_default {A B} (f : A -> B) l i da db :
  f da = db -> nth i (map f l) db = f (nth i l da).
Proof. intros <-. apply map_nth. Qed.

Lemma nth_map_seq {A} (f : nat -> A) n i d :
  (i < n)%nat -> nth i (map f (seq 0 n)) d = f i.
Proof.
  intro H.
  rewrite (nth_indep _ d (f 0%nat)) by now rewrite length_map, length_seq.
  rewrite map_nth, seq_nth by assumption. reflexivity.
Qed.

(** The rows of a window, one row later. *)
Lemma firstn_S_nth {A} (l : list A) n d :
  (n < length l)%nat -> firstn (S n) l = firstn n l ++ [nth n l d].
Proof.
  revert n; induction l as [|a l IH]; intros [|n] H; simpl in *; try lia; auto.
  f_equal. apply IH. lia.
Qed.

Lemma skipn_nth_S {A} (l : list A) n d :
  (n < length l)%nat -> skipn n l = nth n l d :: skipn (S n) l.
Proof.
  revert n; induction l as [|a l IH]; intros [|n] H; simpl in *; try lia; auto.
  apply IH. lia.
Qed.

Lemma window_at_0 w xs :
  (1 <= w)%nat -> (0 < length xs)%nat -> window_at w 0 xs = [nth 0 xs nan].
Proof.
  intros Hw Hx. unfold window_at.
  replace (1 - w)%nat with 0%nat by lia.
  destruct xs; simpl in *; [lia | reflexivity].
Qed.

Lemma window_at_grow w xs k :
  (1 <= w)%nat -> (S k < w)%nat -> (S k < length xs)%nat ->
  window_at w (S k) xs = window_at w k xs ++ [nth (S k) xs nan].
Proof.
  intros Hw Hk Hx. unfold window_at.
  replace (S (S k) - w)%nat with 0%nat by lia.
  replace (S k - w)%nat with 0%nat by lia.
  rewrite !skipn_O. now apply firstn_S_nth.
Qed.

Lemma window_at_slide w xs k :
  (1 <= w)%nat -> (w <= S k)%nat -> (S k < length xs)%nat ->
  window_at w k xs = nth (S k - w) xs nan :: skipn (S (S k) - w) (firstn (S k) xs) /\
  window_at w (S k) xs = skipn (S (S k) - w) (firstn (S k) xs) ++ [nth (S k) xs nan].
Proof.
  intros Hw Hk Hx. unfold window_at. split.
  - rewrite (skipn_nth_S _ _ nan) by (rewrite length_firstn; lia).
    rewrite nth_firstn.
    assert (E : (S k - w <? S k)%nat = true) by (apply Nat.ltb_lt; lia).
    rewrite E. do 2 f_equal. lia.
  - rewrite (firstn_S_nth _ _ nan) by assumption.
    rewrite skipn_app, length_firstn.
    replace (S (S k) - w - Nat.min (S k) (length xs))%nat with 0%nat by lia.
    reflexivity.
Qed.

Lemma observations_app xs ys : observations (xs ++ ys) = observations xs ++ observations ys.
Proof. apply filter_app. Qed.

Lemma observations_one_length x :
  length (observations [x]) = if F64.is_nan x then 0%nat else 1%nat.
Proof. unfold observations. simpl. now destruct (F64.is_nan x). Qed.

Lemma add_mean_nobs x st :
  mean_nobs (add_mean x st) = (mean_nobs st + if F64.is_nan x then 0 else 1)%nat.
Proof. unfold add_mean. destruct (F64.is_nan x); simpl; lia. Qed.

Lemma remove_mean_nobs x st :
  mean_nobs (remove_mean x st) = (mean_nobs st - if F64.is_nan x then 0 else 1)%nat.
Proof. unfold remove_mean. destruct (F64.is_nan x); simpl; lia. Qed.

(** The kernel's count is the number of observations in the window. *)
Lemma roll_mean_state_nobs w values i :
  (1 <= w)%nat -> (i < length values)%nat ->
  mean_nobs (roll_mean_state w values i) = length (observations (window_at w i values)).
Proof.
  intro Hw. induction i as [|k IH]; intro Hi.
  - simpl. rewrite add_mean_nobs, window_at_0, observations_one_length by lia.
    reflexivity.
  - cbn [roll_mean_state].
    destruct (w <=? 1)%nat eqn:E1.
    + apply Nat.leb_le in E1.
      destruct (window_at_slide w values k) as [_ ->]; try lia.
      replace (S (S k) - w)%nat with (S k) by lia.
      rewrite skipn_all2 by (rewrite length_firstn; lia).
      rewrite add_mean_nobs. simpl app. now rewrite observations_one_length.
    + apply Nat.leb_gt in E1. cbv zeta.
      rewrite add_mean_nobs.
      destruct (w <=? S k)%nat eqn:E2.
      * apply Nat.leb_le in E2.
        destruct (window_at_slide w values k) as [Hold ->]; try lia.
        rewrite remove_mean_nobs, IH, Hold by lia.
        rewrite observations_app, length_app, observations_one_length.
        change (nth (S k - w) values nan :: skipn (S (S k) - w) (firstn (S k) values))
          with ([nth (S k - w) values nan] ++ skipn (S (S k) - w) (firstn (S k) values)).
        rewrite observations_app, length_app, observations_one_length.
        destruct (F64.is_nan (nth (S k - w) values nan)); lia.
      * apply Nat.leb_gt in E2.
        rewrite window_at_grow, IH by lia.
        now rewrite observations_app, length_app, observations_one_length.
Qed.

Lemma calc_mean_few minp st : (mean_nobs st < minp)%nat -> calc_mean minp st = nan.
Proof.
  intro H. unfold calc_mean.
  destruct (minp <=? mean_nobs st)%nat eqn:E; [|reflexivity].
  apply Nat.leb_le in E. lia.
Qed.

(** Fewer than [min_periods] rows so far: the rolling mean is undefined. *)
Lemma rolling_mean_warmup w xs i :
  (S i < w)%nat -> nth i (rolling_mean w w xs) nan = nan.
Proof.
  intro Hi. unfold rolling_mean.
  destruct (Nat.lt_ge_cases i (length xs)) as [Hlt | Hge].
  - rewrite nth_map_seq by assumption.
    destruct w as [|w']; [reflexivity|].
    apply calc_mean_few.
    rewrite roll_mean_state_nobs by (rewrite ?prep_values_length; lia).
    unfold observations.
    eapply Nat.le_lt_trans; [apply filter_length_le|].
    unfold window_at. rewrite length_skipn, length_firstn. lia.
  - apply nth_overflow. now rewrite length_map, length_seq.
Qed.

Lemma ewm_step_nobs f nw st cur : (nobs (ewm_step f nw st cur) <= S (nobs st))%nat.
Proof.
  unfold ewm_step.
  destruct (negb (F64.is_nan (weighted st))), (negb (F64.is_nan cur)); simpl; lia.
Qed.

Lemma ewm_scan_warmup f nw minp st xs i :
  (nobs st + S i < minp)%nat -> nth i (ewm_scan f nw minp st xs) nan = nan.
Proof.
  revert st i; induction xs as [|x xs IH]; intros st i H; simpl.
  - destruct i; reflexivity.
  - pose proof (ewm_step_nobs f nw st x) as Hn.
    destruct i as [|i].
    + unfold ewm_out.
      destruct (minp <=? nobs (ewm_step f nw st x))%nat eqn:E; auto.
      apply Nat.leb_le in E. lia.
    + apply IH. lia.
Qed.

(** A series that starts with NaN has seen at most [i] observations at row
    [i]: the weighted mean is undefined on the first [min_periods] rows. *)
Lemma ewm_mean_warmup alpha m xs i :
  nth 0 xs nan = nan -> (i < m)%nat -> nth i (ewm_mean alpha m xs) nan = nan.
Proof.
  intros H0 Hi. unfold ewm_mean. destruct xs as [|x xs]; simpl in *.
  - destruct i; reflexivity.
  - subst x. rewrite prep_value_nan. destruct i as [|i].
    + unfold ewm_out. simpl. destruct m; [lia | reflexivity].
    + apply ewm_scan_warmup. simpl. lia.
Qed.

Lemma diff_nth_0 xs : nth 0 (diff xs) nan = nan.
Proof.
  destruct xs as [|x xs]; simpl; auto.
  apply F64Facts.sub_nan_r.
Qed.

End PandasFacts.

(** ** Lemmas on the indicators *)

Module IndicatorFacts.
Import Pandas Indicators PandasFacts.

Lemma rsi_gain_length xs : length (rsi_gain xs) = length xs.
Proof. unfold rsi_gain. now rewrite clip_lower_length, diff_length. Qed.

Lemma rsi_loss_length xs : length (rsi_loss xs) = length xs.
Proof. unfold rsi_loss. now rewrite neg_length, clip_upper_length, diff_length. Qed.

Lemma rsi_avg_gain_length xs p : length (rsi_avg_gain xs p) = length xs.
Proof. unfold rsi_avg_gain. now rewrite ewm_mean_length, rsi_gain_length. Qed.

Lemma rsi_avg_loss_length xs p : length (rsi_avg_loss xs p) = length xs.
Proof. unfold rsi_avg_loss. now rewrite ewm_mean_length, rsi_loss_length. Qed.

Lemma calculate_rsi_unfold xs p :
  calculate_rsi xs p = zip_with rsi_of (rsi_avg_gain xs p) (rsi_avg_loss xs p).
Proof.
  unfold calculate_rsi. cbv zeta.
  fold (rsi_gain xs). fold (rsi_loss xs). fold (rsi_avg_gain xs p). fold (rsi_avg_loss xs p).
  apply map_zip_with.
Qed.

Lemma calculate_rsi_length xs p : length (calculate_rsi xs p) = length xs.
Proof.
  rewrite calculate_rsi_unfold, zip_with_length; [apply rsi_avg_gain_length|].
  now rewrite rsi_avg_gain_length, rsi_avg_loss_length.
Qed.

Lemma calculate_sma_length xs w : length (calculate_sma xs w) = length xs.
Proof. apply rolling_mean_length. Qed.

(** Row [i] of the RSI is computed from row [i] of the two averages. *)
Lemma calculate_rsi_nth xs p i :
  (i < length xs)%nat ->
  nth i (calculate_rsi xs p) nan
  = rsi_of (nth i (rsi_avg_gain xs p) nan) (nth i (rsi_avg_loss xs p) nan).
Proof.
  intro H. rewrite calculate_rsi_unfold.
  apply zip_with_nth; [now rewrite rsi_avg_gain_length | now rewrite rsi_avg_loss_length].
Qed.

Lemma rsi_gain_nth_0 xs : nth 0 (rsi_gain xs) nan = nan.
Proof.
  unfold rsi_gain, clip_lower.
  pose proof (diff_nth_0 xs) as H.
  destruct (diff xs) as [|d ds]; simpl in *; auto. subst d. reflexivity.
Qed.

Lemma rsi_loss_nth_0 xs : nth 0 (rsi_loss xs) nan = nan.
Proof.
  unfold rsi_loss, neg, clip_upper.
  pose proof (diff_nth_0 xs) as H.
  destruct (diff xs) as [|d ds]; simpl in *; auto. subst d. reflexivity.
Qed.

(** The first [period] rows of the RSI are undefined. *)
Lemma calculate_rsi_warmup xs p i :
  (i < Pos.to_nat p)%nat -> nth i (calculate_rsi xs p) nan = nan.
Proof.
  intro Hi.
  destruct (Nat.lt_ge_cases i (length xs)) as [Hlt | Hge].
  - rewrite calculate_rsi_nth by assumption.
    unfold rsi_avg_gain, rsi_avg_loss.
    rewrite !ewm_mean_warmup; auto using rsi_gain_nth_0, rsi_loss_nth_0.
  - apply nth_overflow. now rewrite calculate_rsi_length.
Qed.

(** The first [window - 1] rows of a moving average are undefined. *)
Lemma calculate_sma_warmup xs w i :
  (S i < Pos.to_nat w)%nat -> nth i (calculate_sma xs w) nan = nan.
Proof. apply rolling_mean_warmup. Qed.

(** With no loss so far and some gain, the RSI is 100. *)
Lemma rsi_of_no_loss (g l : float) :
  (0 <? g) = true -> (l =? 0) = true -> rsi_of g l = 100.
Proof.
  intros Hg Hl. unfold rsi_of.
  destruct (F64Facts.div_pos_zero g l Hg Hl) as [-> | ->]; reflexivity.
Qed.

End IndicatorFacts.

(** ** Lemmas on [generate_signals] *)

Module SignalFacts.
Import Pandas Indicators Strategy PandasFacts IndicatorFacts.

Section Columns.
Variable df : list Bar.
Variables rsi_period short_window long_window : positive.


Lemma col_close_length : length (col_close df) = length df.
Proof. apply length_map. Qed.

Lemma col_rsi_length : length (col_rsi df rsi_period) = length df.
Proof. unfold col_rsi. now rewrite calculate_rsi_length, col_close_length. Qed.

Lemma col_sma_short_length : length (col_sma_short df short_window) = length df.
Proof. unfold col_sma_short. now rewrite calculate_sma_length, col_close_length. Qed.

Lemma col_sma_long_length : length (col_sma_long df long_window) = length df.
Proof. unfold col_sma_long. now rewrite calculate_sma_length, col_close_length. Qed.

Lemma col_ma_diff_length : length (col_ma_diff df short_window long_window) = length df.
Proof.
  unfold col_ma_diff. rewrite zip_with_length; [apply col_sma_short_length|].
  now rewrite col_sma_short_length, col_sma_long_length.
Qed.

Lemma col_ma_diff_nth i :
  (i < length df)%nat ->
  nth i (col_ma_diff df short_window long_window) nan
  = nth i (col_sma_short df short_window) nan - nth i (col_sma_long df long_window) nan.
Proof.
  intro H. unfold col_ma_diff.
  apply zip_with_nth; [now rewrite col_sma_short_length | now rewrite col_sma_long_length].
Qed.

Lemma col_signal_nth i :
  (i < length df)%nat ->
  nth i (col_signal df rsi_period short_window long_window) 0%Z
  = if (nth i (col_rsi df rsi_period) nan <? 30)
       && F64.gtb (nth i (col_ma_diff df short_window long_window) nan) 0
    then 1%Z else 0%Z.
Proof.
  intro H. unfold col_signal.
  rewrite (nth_map_default _ _ i false) by reflexivity.
  unfold buy_conditions.
  rewrite (zip_with_nth andb _ _ i false false false).
  - rewrite (nth_map_default _ _ i nan) by reflexivity.
    rewrite (nth_map_default _ _ i nan) by reflexivity.
    reflexivity.
  - now rewrite length_map, col_rsi_length.
  - now rewrite length_map, col_ma_diff_length.
Qed.

Lemma with_columns_bar i rows :
  map bar (with_columns df rsi_period short_window long_window i rows) = rows.
Proof.
  revert i; induction rows as [|b rows IH]; intro i; simpl; [|rewrite IH]; reflexivity.
Qed.

Lemma with_columns_nth_error j rows i row :
  nth_error (with_columns df rsi_period short_window long_window j rows) i = Some row ->
  exists b, nth_error rows i = Some b /\
    row = mkSignaledBar b
            (nth (j + i) (col_rsi df rsi_period) nan)
            (nth (j + i) (col_sma_short df short_window) nan)
            (nth (j + i) (col_sma_long df long_window) nan)
            (nth (j + i) (col_ma_diff df short_window long_window) nan)
            (nth (j + i) (col_ma_diff_prev df short_window long_window) nan)
            (nth (j + i) (col_signal df rsi_period short_window long_window) 0%Z).
Proof.
  revert j i; induction rows as [|b rows IH]; intros j [|i] H; simpl in *; try discriminate.
  - injection H as <-. exists b. rewrite Nat.add_0_r. auto.
  - replace (j + S i)%nat with (S j + i)%nat by lia. now apply IH.
Qed.

(** Row [i] of the result: the input row and row [i] of every column. *)
Lemma generate_signals_row i row :
  nth_error (generate_signals df rsi_period short_window long_window) i = Some row ->
  (i < length df)%nat /\
  nth_error df i = Some (bar row) /\
  rsi row = nth i (col_rsi df rsi_period) nan /\
  sma_short row = nth i (col_sma_short df short_window) nan /\
  sma_long row = nth i (col_sma_long df long_window) nan /\
  ma_diff row = nth i (col_ma_diff df short_window long_window) nan /\
  ma_diff_prev row = nth i (col_ma_diff_prev df short_window long_window) nan /\
  signal row = nth i (col_signal df rsi_period short_window long_window) 0%Z.
Proof.
  intro H. apply with_columns_nth_error in H. destruct H as (b & Hb & ->). simpl.
  split; [apply nth_error_Some; congruence|]. auto 10.
Qed.

(** [ma_diff_prev] is the [ma_diff] of the previous row, NaN on the first. *)
Lemma generate_signals_ma_diff_prev i row :
  nth_error (generate_signals df rsi_period short_window long_window) i = Some row ->
  ma_diff_prev row
  = match i with
    | O => nan
    | S j => match nth_error (generate_signals df rsi_period short_window long_window) j with
             | Some prev => ma_diff prev
             | None => nan
             end
    end.
Proof.
  intro H. destruct (generate_signals_row i row H) as (Hi & _ & _ & _ & _ & _ & Hp & _).
  rewrite Hp. unfold col_ma_diff_prev.
  destruct i as [|j].
  - apply shift_nth_0.
  - rewrite shift_nth_S by (rewrite col_ma_diff_length; exact Hi).
    destruct (nth_error (generate_signals df rsi_period short_window long_window) j)
      as [prev|] eqn:E.
    + destruct (generate_signals_row j prev E) as (_ & _ & _ & _ & _ & Hd & _). now rewrite Hd.
    + apply nth_error_None in E.
      assert (L : length (generate_signals df rsi_period short_window long_window) = length df).
      { unfold generate_signals.
        rewrite <- (length_map bar), with_columns_bar. reflexivity. }
      lia.
Qed.

(** On the table of [generate_signals] the machine's trend-reversal trigger
    compares the [ma_diff] of the bar with that of the bar before it. *)
Lemma crosses_down_previous_bar i prev row :
  nth_error (generate_signals df rsi_period short_window long_window) i = Some prev ->
  nth_error (generate_signals df rsi_period short_window long_window) (S i) = Some row ->
  Machine.crosses_down row = F64.geb (ma_diff prev) 0 && (ma_diff row <? 0).
Proof.
  intros Hprev Hrow. unfold Machine.crosses_down.
  rewrite (generate_signals_ma_diff_prev (S i) row Hrow), Hprev. reflexivity.
Qed.

End Columns.

End SignalFacts.

(** ** Lemmas on the loop of [backtest_signals] *)

Module LoopFacts.
Import Strategy.

Section Loop.
Variable df : list SignaledBar.
Variables initial_capital rsi_exit : float.


Lemma run_upto_0 : run_upto df initial_capital rsi_exit 0 = bt_init initial_capital.
Proof. reflexivity. Qed.

Lemma run_upto_S k : run_upto df initial_capital rsi_exit (S k) = loop_body df rsi_exit (run_upto df initial_capital rsi_exit k) k.
Proof.
  unfold run_upto. rewrite seq_S, fold_left_app. reflexivity.
Qed.

Lemma loop_body_view st i row :
  nth_error df i = Some row ->
  body_case df rsi_exit st i row (loop_body df rsi_exit st i).
Proof.
  intro Hrow. unfold loop_body. rewrite Hrow.
  destruct (st_in_position st) eqn:Hpos; simpl.
  - fold (exit_now df rsi_exit row i).
    destruct (exit_now df rsi_exit row i) eqn:Hx.
    + now apply body_exit.
    + now apply body_hold.
  - destruct (signal row =? 1)%Z eqn:Hs.
    + apply Z.eqb_eq in Hs. now apply body_enter.
    + apply Z.eqb_neq in Hs. now apply body_idle.
Qed.

Lemma loop_body_beyond st i : (length df <= i)%nat -> loop_body df rsi_exit st i = st.
Proof.
  intro H. unfold loop_body.
  destruct (nth_error df i) eqn:E; auto.
  assert (i < length df)%nat by (apply nth_error_Some; congruence).
  lia.
Qed.

(** One step of the loop, by cases. *)
Lemma run_step k row :
  nth_error df k = Some row ->
  body_case df rsi_exit (run_upto df initial_capital rsi_exit k) k row (run_upto df initial_capital rsi_exit (S k)).
Proof. intro H. rewrite run_upto_S. now apply loop_body_view. Qed.

(** Induction along the loop: a property of the initial state that every
    way through the body preserves holds after every iteration. *)
Lemma run_invariant (P : nat -> BtState -> Prop) :
  P 0%nat (bt_init initial_capital) ->
  (forall k row st st',
      nth_error df k = Some row -> P k st ->
      st = run_upto df initial_capital rsi_exit k ->
      body_case df rsi_exit st k row st' -> P (S k) st') ->
  forall k, (k <= length df)%nat -> P k (run_upto df initial_capital rsi_exit k).
Proof.
  intros H0 Hstep. induction k as [|k IH]; intro Hk; [exact H0|].
  destruct (nth_error df k) as [row|] eqn:E.
  - apply (Hstep k row (run_upto df initial_capital rsi_exit k)); auto.
    + apply IH; lia.
    + now apply run_step.
  - apply nth_error_None in E. lia.
Qed.

Lemma capital_after_snoc ts t :
  capital_after initial_capital (ts ++ [t]) = capital_after initial_capital ts + pnl t.
Proof. unfold capital_after. rewrite map_app, fold_left_app. reflexivity. Qed.

(** [capital] is the initial capital plus the [pnl] of each closed trade. *)
Lemma run_capital k :
  (k <= length df)%nat ->
  st_capital (run_upto df initial_capital rsi_exit k)
  = capital_after initial_capital (st_trades (run_upto df initial_capital rsi_exit k)).
Proof.
  apply (run_invariant (fun _ st => st_capital st = capital_after initial_capital (st_trades st))).
  - reflexivity.
  - intros k' row st st' _ IH _ Hc. destruct Hc; simpl; auto.
    rewrite capital_after_snoc. now rewrite IH.
Qed.

(** Every recorded trade carries the arithmetic of the exit branch. *)
Lemma run_trade_arith k :
  (k <= length df)%nat ->
  Forall (fun t => pnl t = (exit_price t - entry_price t) * shares t /\
                   pnl_pct t = pnl t / (entry_price t * shares t))
         (st_trades (run_upto df initial_capital rsi_exit k)).
Proof.
  apply (run_invariant (fun _ st =>
    Forall (fun t => pnl t = (exit_price t - entry_price t) * shares t /\
                     pnl_pct t = pnl t / (entry_price t * shares t)) (st_trades st))).
  - constructor.
  - intros k' row st st' _ IH _ Hc. destruct Hc; simpl; auto.
    apply Forall_app. split; [exact IH|]. constructor; [|constructor]. simpl. auto.
Qed.

(** The shares of a trade are the capital at its entry over its entry price;
    the capital at entry is what the earlier trades left. *)
Lemma run_shares k :
  (k <= length df)%nat ->
  (forall j t, nth_error (st_trades (run_upto df initial_capital rsi_exit k)) j = Some t ->
     shares t
     = capital_after initial_capital
         (firstn j (st_trades (run_upto df initial_capital rsi_exit k))) / entry_price t) /\
  (st_in_position (run_upto df initial_capital rsi_exit k) = true ->
     st_shares (run_upto df initial_capital rsi_exit k)
     = st_capital (run_upto df initial_capital rsi_exit k)
       / st_entry_price (run_upto df initial_capital rsi_exit k)).
Proof.
  intro Hk.
  apply (run_invariant (fun _ st =>
    st_capital st = capital_after initial_capital (st_trades st) /\
    (forall j t, nth_error (st_trades st) j = Some t ->
       shares t = capital_after initial_capital (firstn j (st_trades st)) / entry_price t) /\
    (st_in_position st = true -> st_shares st = st_capital st / st_entry_price st)))
    in Hk.
  - tauto.
  - split; [reflexivity|]. split; [|discriminate].
    intros [|j] t H; discriminate.
  - intros k' row st st' _ (IHc & IHt & IHp) _ Hc.
    destruct Hc as [Hp Hs | Hp Hs | Hp Hx | Hp Hx]; simpl; auto.
    + split; [rewrite capital_after_snoc; now rewrite IHc|].
      split; [|discriminate].
      intros j t Hj.
      destruct (Nat.lt_ge_cases j (length (st_trades st))) as [Hlt | Hge].
      * rewrite nth_error_app1 in Hj by assumption.
        rewrite firstn_app.
        replace (j - length (st_trades st))%nat with 0%nat by lia.
        simpl. rewrite app_nil_r. now apply IHt.
      * rewrite nth_error_app2 in Hj by assumption.
        destruct (j - length (st_trades st))%nat as [|d] eqn:Ed.
        2: { destruct d; discriminate. }
        injection Hj as <-. simpl.
        assert (j = length (st_trades st)) by lia. subst j.
        rewrite firstn_app, firstn_all, Nat.sub_diag. simpl. rewrite app_nil_r.
        rewrite <- IHc. now apply IHp.
Qed.

(** Every trade was entered on one bar and exited on a later one, at their
    dates and close prices. *)
Lemma run_bars k :
  (k <= length df)%nat ->
  Forall (fun t => exists a b ra rb,
            (a < b)%nat /\ nth_error df a = Some ra /\ nth_error df b = Some rb /\
            entry_date t = Some (date (bar ra)) /\ exit_date t = date (bar rb) /\
            entry_price t = Close (bar ra) /\ exit_price t = Close (bar rb))
         (st_trades (run_upto df initial_capital rsi_exit k)).
Proof.
  intro Hk.
  apply (run_invariant (fun k st =>
    Forall (fun t => exists a b ra rb,
              (a < b)%nat /\ nth_error df a = Some ra /\ nth_error df b = Some rb /\
              entry_date t = Some (date (bar ra)) /\ exit_date t = date (bar rb) /\
              entry_price t = Close (bar ra) /\ exit_price t = Close (bar rb))
           (st_trades st) /\
    (st_in_position st = true ->
       exists a ra, (a < k)%nat /\ nth_error df a = Some ra /\
                    st_entry_date st = Some (date (bar ra)) /\
                    st_entry_price st = Close (bar ra))))
    in Hk.
  - tauto.
  - split; [constructor | discriminate].
  - intros k' row st st' Hrow (IHt & IHp) _ Hc.
    destruct Hc as [Hp Hs | Hp Hs | Hp Hx | Hp Hx]; simpl.
    + split; [exact IHt|]. intros _. exists k', row. auto.
    + split; [exact IHt|]. intro Hq. destruct (IHp Hq) as (a & ra & Ha & Hra & Hd & He).
      exists a, ra. auto.
    + split; [|discriminate].
      apply Forall_app. split; [exact IHt|]. constructor; [|constructor]. simpl.
      destruct (IHp Hp) as (a & ra & Ha & Hra & Hd & He).
      exists a, k', ra, row. auto 10.
    + split; [exact IHt|]. intro Hq. destruct (IHp Hq) as (a & ra & Ha & Hra & Hd & He).
      exists a, ra. auto.
Qed.

Lemma entered_spec k row :
  nth_error df k = Some row ->
  entered df initial_capital rsi_exit k
  = negb (st_in_position (run_upto df initial_capital rsi_exit k)) && (signal row =? 1)%Z.
Proof. intro H. unfold entered. now rewrite H. Qed.

Lemma entries_S k :
  filter (entered df initial_capital rsi_exit) (seq 0 (S k))
  = filter (entered df initial_capital rsi_exit) (seq 0 k)
    ++ (if entered df initial_capital rsi_exit k then [k] else []).
Proof.
  rewrite seq_S, filter_app. simpl.
  destruct (entered df initial_capital rsi_exit k); reflexivity.
Qed.

(** The trades recorded so far close the entries made so far, one each and in
    order, but for the entry of a position that is still open. *)
Lemma run_entries k :
  (k <= length df)%nat ->
  (st_in_position (run_upto df initial_capital rsi_exit k) = false ->
     map entry_date (st_trades (run_upto df initial_capital rsi_exit k))
     = map (date_at df) (filter (entered df initial_capital rsi_exit) (seq 0 k))) /\
  (st_in_position (run_upto df initial_capital rsi_exit k) = true ->
     exists es e,
       filter (entered df initial_capital rsi_exit) (seq 0 k) = es ++ [e] /\
       map entry_date (st_trades (run_upto df initial_capital rsi_exit k))
       = map (date_at df) es /\
       st_entry_date (run_upto df initial_capital rsi_exit k) = date_at df e).
Proof.
  apply (run_invariant (fun k st =>
    (st_in_position st = false ->
       map entry_date (st_trades st)
       = map (date_at df) (filter (entered df initial_capital rsi_exit) (seq 0 k))) /\
    (st_in_position st = true ->
       exists es e,
         filter (entered df initial_capital rsi_exit) (seq 0 k) = es ++ [e] /\
         map entry_date (st_trades st) = map (date_at df) es /\
         st_entry_date st = date_at df e))).
  - split; [reflexivity | discriminate].
  - intros k' row st st' Hrow (IHf & IHp) Hst Hc.
    rewrite entries_S, (entered_spec k' row Hrow), <- Hst.
    destruct Hc as [Hp Hs | Hp Hs | Hp Hx | Hp Hx]; simpl; rewrite Hp; simpl.
    + rewrite Hs. simpl. split; [discriminate|]. intros _.
      exists (filter (entered df initial_capital rsi_exit) (seq 0 k')), k'.
      split; [reflexivity|]. split; [now apply IHf|].
      unfold date_at. now rewrite Hrow.
    + apply Z.eqb_neq in Hs. rewrite Hs, app_nil_r.
      split; [intros _; now apply IHf | discriminate].
    + rewrite app_nil_r. split; [|discriminate]. intros _.
      destruct (IHp Hp) as (es & e & -> & Hm & Hd).
      rewrite !map_app, Hm. simpl. now rewrite Hd.
    + rewrite app_nil_r. split; [discriminate | intros _; now apply IHp].
Qed.

(** Without a bar whose [signal] is 1 the loop never leaves its first state. *)
Lemma run_no_signal k :
  (forall row, In row df -> signal row <> 1%Z) ->
  (k <= length df)%nat ->
  run_upto df initial_capital rsi_exit k = bt_init initial_capital.
Proof.
  intro Hno.
  apply (run_invariant (fun _ st => st = bt_init initial_capital)).
  - reflexivity.
  - intros k' row st st' Hrow -> _ Hc.
    destruct Hc as [Hp Hs | Hp Hs | Hp Hx | Hp Hx]; auto; try discriminate.
    exfalso. apply (Hno row); [eapply nth_error_In; eauto | exact Hs].
Qed.

End Loop.

(** One iteration of the loop is one transition of the machine. *)
Lemma body_simulates df rsi_exit st s i b last :
  nth_error df i = Some b ->
  (i =? length df - 1)%nat = last ->
  Machine.holds st s ->
  Machine.holds (loop_body df rsi_exit st i) (Machine.step rsi_exit last b s).
Proof.
  intros Hb Hlast (Ht & Hc & Hp).
  unfold loop_body, Machine.step. rewrite Hb, Hlast.
  destruct (Machine.pos s) as [|ep ed sh] eqn:Hpos.
  - rewrite Hp. simpl.
    destruct (signal b =? 1)%Z.
    + unfold Machine.holds. simpl. rewrite Ht, Hc. repeat split.
    + unfold Machine.holds. rewrite Hpos. auto.
  - destruct Hp as (Hp & Hep & Hed & Hsh). rewrite Hp. simpl.
    fold (Machine.crosses_down b). fold (Machine.overbought rsi_exit b).
    destruct (Machine.crosses_down b || Machine.overbought rsi_exit b || last).
    + unfold Machine.holds, Machine.close_trade. simpl.
      rewrite Ht, Hc, Hep, Hed, Hsh. repeat split.
    + unfold Machine.holds. rewrite Hpos. auto 10.
Qed.

(** The iterations from [length pre] on simulate the machine on the bars
    that remain. *)
Lemma loop_simulates rsi_exit suf :
  forall pre st s,
    Machine.holds st s ->
    Machine.holds
      (fold_left (loop_body (pre ++ suf) rsi_exit) (seq (length pre) (length suf)) st)
      (Machine.run rsi_exit suf s).
Proof.
  induction suf as [|b rest IH]; intros pre st s H; simpl; [exact H|].
  replace (pre ++ b :: rest) with ((pre ++ [b]) ++ rest) by now rewrite <- app_assoc.
  replace (S (length pre)) with (length (pre ++ [b])) by (rewrite length_app; simpl; lia).
  apply IH.
  rewrite <- app_assoc. simpl.
  apply body_simulates; auto.
  - rewrite nth_error_app2 by lia. now rewrite Nat.sub_diag.
  - rewrite length_app. simpl.
    destruct rest; simpl; [apply Nat.eqb_eq | apply Nat.eqb_neq]; lia.
Qed.

End LoopFacts.

(** ** Lemmas on the summary *)

Module SummaryFacts.
Import Strategy.

Lemma capital_ratio_nonzero ts c ic :
  (ic =? 0) = false -> capital_ratio ts c ic = Ok (c / ic).
Proof. intro H. unfold capital_ratio. rewrite H. now destruct ts. Qed.

Lemma capital_ratio_traded t ts c ic : capital_ratio (t :: ts) c ic = Ok (c / ic).
Proof. reflexivity. Qed.

(** The function returns when the initial capital is not zero or a trade
    was closed, and raises otherwise. *)
Lemma backtest_signals_returns df ic rx :
  (ic =? 0) = false \/ trade_table df ic rx <> [] ->
  backtest_signals df ic rx
  = Ok (trade_table df ic rx,
        summarize (trade_table df ic rx) (final_capital df ic rx / ic)).
Proof.
  intro H. unfold backtest_signals. cbv zeta.
  destruct H as [H | H].
  - now rewrite capital_ratio_nonzero.
  - destruct (trade_table df ic rx) as [|t ts]; [congruence|].
    now rewrite capital_ratio_traded.
Qed.

Lemma backtest_signals_raises df ic rx :
  (ic =? 0) = true -> trade_table df ic rx = [] ->
  backtest_signals df ic rx = Raise ZeroDivisionError.
Proof.
  intros H0 Ht. unfold backtest_signals. cbv zeta.
  rewrite Ht. simpl. now rewrite H0.
Qed.

Lemma pnl_scale t : pnl (scale_pnl_pct t) = pnl t.
Proof. reflexivity. Qed.

Lemma map_pnl_scale ts : map pnl (map scale_pnl_pct ts) = map pnl ts.
Proof. rewrite map_map. apply map_ext. intro; reflexivity. Qed.

Lemma map_entry_date_scale ts : map entry_date (map scale_pnl_pct ts) = map entry_date ts.
Proof. rewrite map_map. apply map_ext. intro; reflexivity. Qed.

(** Every trade is a win, a loss, or has an undefined [pnl]. *)
Lemma counts_partition ts :
  (count_wins ts + count_losses ts + count_nan_pnl ts = length ts)%nat.
Proof.
  unfold count_wins, count_losses, count_nan_pnl.
  induction ts as [|t ts IH]; simpl; [reflexivity|].
  destruct (F64Facts.gt0_le0_nan (pnl t)) as [H | [H | H]];
    injection H as -> -> ->; simpl; lia.
Qed.


Lemma summarize_counts ts ratio :
  total_trades (summarize ts ratio) = length ts /\
  wins (summarize ts ratio) = count_wins ts /\
  losses (summarize ts ratio) = count_losses ts.
Proof. destruct ts; simpl; auto. Qed.

Lemma summarize_win_rate ts ratio :
  win_rate (summarize ts ratio)
  = if (total_trades (summarize ts ratio) =? 0)%nat then 0
    else F64.of_nat (wins (summarize ts ratio))
         / F64.of_nat (total_trades (summarize ts ratio)).
Proof. destruct ts; reflexivity. Qed.

End SummaryFacts.

(** ** The signal generator *)

Section SignalClaims.
Import Pandas Indicators Strategy Samples.
Import PandasFacts IndicatorFacts SignalFacts.

(** C8. [generate_signals] returns one row per input row, in the input's
    order: the table has the input's length, and dropping the added columns
    gives the input back. *)
Theorem generate_signals_rows (df : list Bar) (rsi_period short_window long_window : positive) :
  length (generate_signals df rsi_period short_window long_window) = length df /\
  map bar (generate_signals df rsi_period short_window long_window) = df.
Proof.
  assert (H : map bar (generate_signals df rsi_period short_window long_window) = df)
    by apply with_columns_bar.
  split; [|exact H].
  rewrite <- H at 2. now rewrite length_map.
Qed.

(** C3. On every row of the table [generate_signals] returns, [signal] is 1
    exactly when [rsi < 30] and [ma_diff > 0] and is 0 otherwise, where
    [ma_diff = sma_short - sma_long]; a row on which [rsi], [sma_short] or
    [sma_long] is NaN has [signal = 0]; and the rows of the warm-up (the first
    [rsi_period] rows for the RSI, the first [window - 1] for a moving
    average) are such rows. *)
Theorem signal_rule (df : list Bar) (rsi_period short_window long_window : positive)
        (i : nat) (row : SignaledBar) :
  nth_error (generate_signals df rsi_period short_window long_window) i = Some row ->
  (signal row = 1%Z \/ signal row = 0%Z) /\
  (signal row = 1%Z <-> (rsi row <? 30) = true /\ F64.gtb (ma_diff row) 0 = true) /\
  ma_diff row = sma_short row - sma_long row /\
  (F64.is_nan (rsi row) = true \/ F64.is_nan (sma_short row) = true
   \/ F64.is_nan (sma_long row) = true -> signal row = 0%Z) /\
  ((i < Pos.to_nat rsi_period)%nat -> F64.is_nan (rsi row) = true) /\
  ((S i < Pos.to_nat short_window)%nat -> F64.is_nan (sma_short row) = true) /\
  ((S i < Pos.to_nat long_window)%nat -> F64.is_nan (sma_long row) = true).
Proof.
  intro H.
  destruct (generate_signals_row df rsi_period short_window long_window i row H)
    as (Hi & _ & Hrsi & Hshort & Hlong & Hdiff & _ & Hsig).
  assert (Hmd : ma_diff row = sma_short row - sma_long row).
  { rewrite Hdiff, Hshort, Hlong. now apply col_ma_diff_nth. }
  assert (Hrule : signal row
                  = if (rsi row <? 30) && F64.gtb (ma_diff row) 0 then 1%Z else 0%Z).
  { rewrite Hsig, Hrsi, Hdiff. now apply col_signal_nth. }
  split; [|split; [|split; [exact Hmd|split; [|split; [|split]]]]].
  - rewrite Hrule. destruct ((rsi row <? 30) && F64.gtb (ma_diff row) 0); auto.
  - rewrite Hrule.
    destruct (rsi row <? 30), (F64.gtb (ma_diff row) 0); simpl;
      split; try discriminate; intuition discriminate.
  - intros Hnan. rewrite Hrule.
    destruct Hnan as [Hn | Hn].
    + rewrite (F64Facts.is_nan_eq _ Hn), F64Facts.ltb_nan_l. reflexivity.
    + assert (Hd : ma_diff row = nan).
      { rewrite Hmd. apply F64Facts.sub_nan_any. exact Hn. }
      rewrite Hd. unfold F64.gtb. rewrite F64Facts.ltb_nan_r.
      now rewrite andb_false_r.
  - intro Hw. rewrite Hrsi. unfold col_rsi.
    now rewrite calculate_rsi_warmup.
  - intro Hw. rewrite Hshort. unfold col_sma_short.
    now rewrite calculate_sma_warmup.
  - intro Hw. rewrite Hlong. unfold col_sma_long.
    now rewrite calculate_sma_warmup.
Qed.

(** The rule on two rows of [slide]: on the first buy the RSI is 28.05, under
    30, and the short average is 28.83 above the long one; on the first row
    every indicator is NaN and there is no signal. *)
Lemma signal_rule_witness :
  (nth_error (generate_signals slide 2 2 12) 11 = Some slide_buy /\
   signal slide_buy = 1%Z /\
   (signal slide_buy = 1%Z <->
      (rsi slide_buy <? 30) = true /\ F64.gtb (ma_diff slide_buy) 0 = true)) /\
  (nth_error (generate_signals slide 2 2 12) 0 = Some slide_first /\
   F64.is_nan (rsi slide_first) = true /\
   signal slide_first = 0%Z).
Proof.
  assert (H11 : nth_error (generate_signals slide 2 2 12) 11 = Some slide_buy)
    by (vm_compute; reflexivity).
  assert (H0 : nth_error (generate_signals slide 2 2 12) 0 = Some slide_first)
    by (vm_compute; reflexivity).
  split.
  - split; [exact H11|]. split; [reflexivity|].
    exact (proj1 (proj2 (signal_rule slide 2 2 12 11 slide_buy H11))).
  - split; [exact H0|]. split; [reflexivity|].
    apply (proj1 (proj2 (proj2 (proj2 (signal_rule slide 2 2 12 0 slide_first H0))))).
    left. reflexivity.
Defined.

End SignalClaims.

(** ** The RSI *)

Section RsiClaims.
Import Pandas Indicators Samples.
Import PandasFacts IndicatorFacts.

(** C4, as the code has it.  On every row where the smoothed average loss is
    zero and the smoothed average gain is above zero, [calculate_rsi] returns
    exactly 100: the quotient is an infinity and the arithmetic carries it
    through. *)
Theorem rsi_100_without_loss (series : Series) (period : positive) (i : nat) :
  (nth i (rsi_avg_loss series period) nan =? 0) = true ->
  F64.gtb (nth i (rsi_avg_gain series period) nan) 0 = true ->
  nth i (calculate_rsi series period) nan = 100.
Proof.
  intros Hloss Hgain.
  destruct (Nat.lt_ge_cases i (length series)) as [Hlt | Hge].
  - rewrite calculate_rsi_nth by assumption.
    now apply rsi_of_no_loss.
  - rewrite nth_overflow in Hloss by now rewrite rsi_avg_loss_length.
    discriminate.
Qed.

(** Row 3 of a rising series with period 3. *)
Lemma rsi_100_without_loss_witness :
  nth 3 (calculate_rsi rising_prices 3) nan = 100.
Proof.
  apply (rsi_100_without_loss rising_prices 3 3); vm_compute; reflexivity.
Defined.

(** C4 fails as stated.  On a price that never moves, row 14 is past the
    warm-up of the default period 14 and its average loss is zero, but so is
    its average gain: the quotient is 0/0 and the RSI is NaN, not 100. *)
Lemma rsi_flat_series_undefined :
  (nth 14 (rsi_avg_loss flat_prices 14) nan =? 0) = true /\
  (nth 14 (rsi_avg_gain flat_prices 14) nan =? 0) = true /\
  F64.is_nan (nth 14 (calculate_rsi flat_prices 14) nan) = true /\
  nth 14 (calculate_rsi flat_prices 14) nan <> 100.
Proof.
  repeat split; try (vm_compute; reflexivity).
  intro H. apply (f_equal F64.is_nan) in H. vm_compute in H. discriminate.
Qed.

End RsiClaims.

(** ** The backtest simulator *)

Section BacktestClaims.
Import Strategy Samples.
Import LoopFacts SummaryFacts.

Lemma exit_now_last df rsi_exit row : exit_now df rsi_exit row (length df - 1) = true.
Proof. unfold exit_now. rewrite Nat.eqb_refl. apply orb_true_r. Qed.

(** The last iteration never holds a position: it enters, stays flat or exits. *)
Lemma last_step df ic rx m row :
  length df = S m -> nth_error df m = Some row ->
  (st_in_position (run_upto df ic rx m) = false /\ signal row = 1%Z /\
   run_loop df ic rx = opened (run_upto df ic rx m) row) \/
  (st_in_position (run_upto df ic rx m) = false /\ signal row <> 1%Z /\
   run_loop df ic rx = run_upto df ic rx m) \/
  (st_in_position (run_upto df ic rx m) = true /\
   run_loop df ic rx = closed (run_upto df ic rx m) row).
Proof.
  intros Hlen Hrow. unfold run_loop. rewrite Hlen.
  pose proof (exit_now_last df rx row) as Hx.
  rewrite Hlen in Hx. simpl in Hx. rewrite Nat.sub_0_r in Hx.
  destruct (run_step df ic rx m row Hrow) as [Hp Hs | Hp Hs | Hp Hx' | Hp Hx']; auto.
  congruence.
Qed.

(** C1, as the code has it.  The trades close, one each and in order, the
    entries made on the bars before the last; a run whose last bar triggers
    no entry ends flat; and a position that is open when the last bar is
    reached is closed there, at that bar's date and close price. *)
Theorem entries_before_last_are_closed (df : list SignaledBar) (ic rx : float) :
  map entry_date (trade_table df ic rx)
  = map (date_at df) (filter (entered df ic rx) (seq 0 (length df - 1))) /\
  (entered df ic rx (length df - 1) = false ->
     st_in_position (run_loop df ic rx) = false) /\
  (st_in_position (run_upto df ic rx (length df - 1)) = true ->
     exists ts t last,
       nth_error df (length df - 1) = Some last /\
       trade_table df ic rx = ts ++ [t] /\
       exit_date t = date (bar last) /\ exit_price t = Close (bar last)).
Proof.
  unfold trade_table. rewrite map_entry_date_scale.
  destruct (length df) as [|m] eqn:Hlen.
  - unfold run_loop. rewrite Hlen. simpl.
    repeat split; auto. discriminate.
  - simpl. rewrite Nat.sub_0_r.
    destruct (nth_error df m) as [row|] eqn:Hrow.
    2: { apply nth_error_None in Hrow. lia. }
    destruct (run_entries df ic rx m) as [Hflat Hopen]; [lia|].
    pose proof (entered_spec df ic rx m row Hrow) as He.
    destruct (last_step df ic rx m row Hlen Hrow)
      as [(Hp & Hs & ->) | [(Hp & Hs & ->) | (Hp & ->)]]; simpl.
    + repeat split.
      * now apply Hflat.
      * intro Hn. rewrite He, Hp, Hs in Hn. discriminate.
      * intro Hq. congruence.
    + repeat split.
      * now apply Hflat.
      * intros _. exact Hp.
      * intro Hq. congruence.
    + destruct (Hopen Hp) as (es & e & -> & Hm & Hd).
      repeat split.
      * rewrite !map_app, Hm. simpl. now rewrite Hd.
      * intros _.
        exists (map scale_pnl_pct (st_trades (run_upto df ic rx m))),
               (scale_pnl_pct (closing_trade (run_upto df ic rx m) row)), row.
        rewrite map_app. simpl. auto.
Qed.

(** C1 fails as stated.  When the only bar carries the buy signal the loop
    enters on it and ends: the position is still open, no trade is recorded,
    and the summary counts none. *)
Lemma entry_on_last_bar_stays_open :
  entered entry_on_last 100000 70 0 = true /\
  st_in_position (run_loop entry_on_last 100000 70) = true /\
  trade_table entry_on_last 100000 70 = [] /\
  backtest_signals entry_on_last 100000 70 = Ok ([], mkSummary 0 0 0 0 0).
Proof. repeat split; vm_compute; reflexivity. Qed.

(** C2. The loop of [backtest_signals] is the single-position machine: after
    the last bar its variables hold the machine's state, so the trade table
    is the machine's ledger (with [pnl_pct] in percent) and the final capital
    is the machine's; and on a table that [generate_signals] built, the
    machine's trigger (a) compares the bar's [ma_diff] with that of the bar
    before it. *)
Theorem loop_is_the_machine (df : list SignaledBar) (ic rx : float) :
  Machine.holds (run_loop df ic rx) (Machine.run rx df (Machine.start ic)) /\
  trade_table df ic rx
  = map scale_pnl_pct (Machine.ledger (Machine.run rx df (Machine.start ic))) /\
  final_capital df ic rx = Machine.capital (Machine.run rx df (Machine.start ic)) /\
  (forall bars p s l i prev row,
      nth_error (generate_signals bars p s l) i = Some prev ->
      nth_error (generate_signals bars p s l) (S i) = Some row ->
      Machine.crosses_down row = F64.geb (ma_diff prev) 0 && (ma_diff row <? 0)).
Proof.
  assert (H : Machine.holds (run_loop df ic rx) (Machine.run rx df (Machine.start ic))).
  { apply (loop_simulates rx df [] (bt_init ic) (Machine.start ic)).
    repeat split. }
  split; [exact H|].
  destruct H as (Ht & Hc & _).
  unfold trade_table, final_capital. rewrite Ht, Hc.
  repeat split. apply SignalFacts.crosses_down_previous_bar.
Qed.

(** C5. Every trade of the table was entered on one bar and exited on a
    later bar, never on its entry bar, so with the strictly increasing index
    of the data its [exit_date] is after its [entry_date]; and its [shares]
    are the capital held at its entry, which is the initial capital plus the
    [pnl] of the trades before it, divided by its entry price. *)
Theorem trade_exits_later_with_all_capital (df : list SignaledBar) (ic rx : float)
        (k : nat) (t : Trade) :
  nth_error (trade_table df ic rx) k = Some t ->
  (exists a b ra rb,
      (a < b)%nat /\ nth_error df a = Some ra /\ nth_error df b = Some rb /\
      entry_date t = Some (date (bar ra)) /\ exit_date t = date (bar rb) /\
      entry_price t = Close (bar ra) /\ exit_price t = Close (bar rb)) /\
  (increasing_dates df -> exists d, entry_date t = Some d /\ (d < exit_date t)%Z) /\
  shares t = capital_after ic (firstn k (trade_table df ic rx)) / entry_price t.
Proof.
  intros Hk. unfold trade_table in *.
  rewrite nth_error_map in Hk.
  destruct (nth_error (st_trades (run_loop df ic rx)) k) as [t0|] eqn:Ht0; [|discriminate].
  injection Hk as <-. simpl.
  assert (Hbars : exists a b ra rb,
             (a < b)%nat /\ nth_error df a = Some ra /\ nth_error df b = Some rb /\
             entry_date t0 = Some (date (bar ra)) /\ exit_date t0 = date (bar rb) /\
             entry_price t0 = Close (bar ra) /\ exit_price t0 = Close (bar rb)).
  { pose proof (run_bars df ic rx (length df) (Nat.le_refl _)) as Hb.
    rewrite Forall_forall in Hb. apply Hb.
    eapply nth_error_In. exact Ht0. }
  split; [exact Hbars|]. split.
  - intro Hinc.
    destruct Hbars as (a & b & ra & rb & Hab & Hra & Hrb & He & Hx & _).
    exists (date (bar ra)). split; [exact He|].
    rewrite Hx. exact (Hinc a b ra rb Hab Hra Hrb).
  - destruct (run_shares df ic rx (length df) (Nat.le_refl _)) as [Hs _].
    unfold capital_after. rewrite <- firstn_map, map_pnl_scale, firstn_map.
    now apply Hs.
Qed.

Lemma two_trips_dates : increasing_dates two_trips.
Proof.
  intros i j ri rj Hij Hi Hj.
  destruct i as [|[|[|[|[|i]]]]]; destruct j as [|[|[|[|[|j]]]]];
    simpl in Hi, Hj; try lia;
    try (destruct i; discriminate); try (destruct j; discriminate);
    injection Hi as <-; injection Hj as <-; simpl; lia.
Defined.

(** The second trade of [two_trips]: entered on day 3 with the 120000 the
    first trade left, at 12 a share. *)
Lemma trade_exits_later_with_all_capital_witness :
  exists t, nth_error (trade_table two_trips 100000 70) 1 = Some t /\
    (exists d, entry_date t = Some d /\ (d < exit_date t)%Z) /\
    shares t = capital_after 100000 (firstn 1 (trade_table two_trips 100000 70))
               / entry_price t /\
    shares t = 10000.
Proof.
  eexists. split; [vm_compute; reflexivity|].
  split; [|split; [|reflexivity]].
  - refine (proj1 (proj2 (trade_exits_later_with_all_capital two_trips 100000 70 1 _ _))
                  two_trips_dates).
    vm_compute; reflexivity.
  - refine (proj2 (proj2 (trade_exits_later_with_all_capital two_trips 100000 70 1 _ _))).
    vm_compute; reflexivity.
Defined.

(** C6, as the code has it.  A run returns unless the initial capital is zero
    and no trade was closed (Python then raises on [capital / initial_capital]).
    It returns a summary in which [total_trades] is the length of the table; every trade
    is a win, a loss or has a NaN [pnl], so [wins + losses = total_trades]
    when no [pnl] is NaN; [win_rate] is [wins / total_trades], and 0.0 without
    trades; [cumulative_return_pct] is [(capital / initial_capital - 1) * 100]
    for the final capital, the initial capital plus every [pnl]; and each
    [pnl_pct] of the table is the trade's return times 100. *)
Theorem summary_accounts (df : list SignaledBar) (ic rx : float) :
  (ic =? 0) = false \/ trade_table df ic rx <> [] ->
  exists summ,
    backtest_signals df ic rx = Ok (trade_table df ic rx, summ) /\
    total_trades summ = length (trade_table df ic rx) /\
    (wins summ + losses summ + count_nan_pnl (trade_table df ic rx)
     = total_trades summ)%nat /\
    (count_nan_pnl (trade_table df ic rx) = 0%nat ->
     (wins summ + losses summ = total_trades summ)%nat) /\
    win_rate summ
    = (if (total_trades summ =? 0)%nat then 0
       else F64.of_nat (wins summ) / F64.of_nat (total_trades summ)) /\
    cumulative_return_pct summ = (final_capital df ic rx / ic - 1) * 100 /\
    final_capital df ic rx = capital_after ic (trade_table df ic rx) /\
    Forall (fun t => pnl_pct t = pnl t / (entry_price t * shares t) * 100)
           (trade_table df ic rx).
Proof.
  intro Hic.
  exists (summarize (trade_table df ic rx) (final_capital df ic rx / ic)).
  split; [now apply backtest_signals_returns|].
  destruct (summarize_counts (trade_table df ic rx) (final_capital df ic rx / ic))
    as (Ht & Hw & Hl).
  pose proof (counts_partition (trade_table df ic rx)) as Hpart.
  split; [exact Ht|].
  split; [rewrite Ht, Hw, Hl; exact Hpart|].
  split; [intro Hn; rewrite Ht, Hw, Hl; lia|].
  split; [apply summarize_win_rate|].
  split; [reflexivity|].
  split.
  - unfold final_capital, trade_table, capital_after, run_loop.
    rewrite map_pnl_scale. now apply run_capital.
  - unfold trade_table. apply Forall_map.
    eapply Forall_impl; [|apply (run_trade_arith df ic rx (length df) (Nat.le_refl _))].
    intros t (_ & Hp). simpl. now rewrite Hp.
Qed.

(** The run of [two_trips]: one win and one loss out of two trades. *)
Lemma summary_accounts_witness :
  exists summ,
    backtest_signals two_trips 100000 70 = Ok (trade_table two_trips 100000 70, summ) /\
    total_trades summ = 2%nat /\ wins summ = 1%nat /\ losses summ = 1%nat /\
    win_rate summ = 0.5.
Proof.
  destruct (summary_accounts two_trips 100000 70 (or_introl eq_refl)) as (summ & Hrun & _).
  exists summ. split; [exact Hrun|].
  vm_compute in Hrun. injection Hrun as <-. repeat split.
Defined.

(** C6 fails as stated.  An entry at a price of zero buys infinitely many
    shares; the exit at zero gives [pnl = 0 * inf = NaN], which is neither
    [> 0] nor [<= 0]: one trade, no win and no loss. *)
Lemma nan_pnl_is_neither_win_nor_loss :
  exists ledger summ,
    backtest_signals zero_price 100000 70 = Ok (ledger, summ) /\
    total_trades summ = 1%nat /\ wins summ = 0%nat /\ losses summ = 0%nat /\
    (wins summ + losses summ)%nat <> total_trades summ.
Proof.
  eexists. eexists. split; [vm_compute; reflexivity|].
  simpl. repeat split. discriminate.
Qed.



End BacktestClaims.

(** ** The pipeline *)

Section PipelineClaims.
Import Strategy DataFetch Demo Frames Samples.
Import LoopFacts SummaryFacts.




(** The empty table with its columns, with any periods and any exit threshold. *)
Lemma empty_input_summary (rsi_period short_window long_window : positive) (rx : float) :
  generate_signals [] rsi_period short_window long_window = [] /\
  backtest_signals (generate_signals [] rsi_period short_window long_window) 100000 rx
  = Ok ([], mkSummary 0 0 0 0 0).
Proof. split; reflexivity. Qed.

End PipelineClaims.

(** ** Lemmas on the bars of the trades *)

Module SpanFacts.
Import Strategy Spans LoopFacts.

Lemma next_free_snoc lo spans s : next_free lo (spans ++ [s]) = S (snd s).
Proof. unfold next_free. now rewrite fold_left_app. Qed.

Lemma disjoint_from_snoc spans : forall lo s,
  disjoint_from lo spans -> (next_free lo spans <= fst s)%nat -> (fst s < snd s)%nat ->
  disjoint_from lo (spans ++ [s]).
Proof.
  induction spans as [|s0 spans IH]; intros lo s Hd Hn Hs; simpl in *.
  - auto.
  - destruct Hd as (H1 & H2 & H3). repeat split; auto.
Qed.

Lemma disjoint_from_consecutive spans : forall lo k s1 s2,
  disjoint_from lo spans ->
  nth_error spans k = Some s1 -> nth_error spans (S k) = Some s2 ->
  (snd s1 < fst s2)%nat.
Proof.
  induction spans as [|s spans IH]; intros lo k s1 s2 Hd H1 H2.
  - destruct k; discriminate.
  - simpl in Hd. destruct Hd as (_ & _ & Hd).
    destruct k as [|k]; simpl in H1, H2.
    + injection H1 as <-. destruct spans as [|s' spans]; [discriminate|].
      injection H2 as <-. simpl in Hd. lia.
    + exact (IH _ _ _ _ Hd H1 H2).
Qed.

Lemma Forall2_nth_r {A B} (P : A -> B -> Prop) l l' k b :
  Forall2 P l l' -> nth_error l' k = Some b ->
  exists a, nth_error l k = Some a /\ P a b.
Proof.
  intro H. revert k. induction H as [|x y l l' Hxy H IH]; intros [|k] Hk;
    simpl in *; try discriminate.
  - injection Hk as <-. now exists x.
  - now apply IH.
Qed.

Lemma closes_table df rx spans ts :
  Forall2 (closes df rx) spans ts ->
  Forall2 (closes df rx) spans (map scale_pnl_pct ts).
Proof.
  induction 1 as [|s t spans ts Hst Hf IH]; simpl; constructor; auto.
Qed.

Lemma closes_in_range df rx spans ts :
  Forall2 (closes df rx) spans ts ->
  Forall (fun s => (snd s < length df)%nat) spans.
Proof.
  induction 1 as [|s t spans ts Hst Hf IH]; constructor; auto.
  destruct Hst as (_ & ra & rb & _ & Hrb & _).
  apply nth_error_Some. congruence.
Qed.

Section Loop.
Variable df : list SignaledBar.
Variables initial_capital rsi_exit : float.

(** After every iteration the recorded trades span disjoint runs of earlier
    bars, and an open position was entered after the last of them and has
    seen no exit trigger since. *)
Lemma run_spans k :
  (k <= length df)%nat ->
  exists spans,
    Forall2 (closes df rsi_exit) spans
            (st_trades (run_upto df initial_capital rsi_exit k)) /\
    disjoint_from 0 spans /\
    (st_in_position (run_upto df initial_capital rsi_exit k) = false ->
       (next_free 0 spans <= k)%nat) /\
    (st_in_position (run_upto df initial_capital rsi_exit k) = true ->
       exists a ra,
         (a < k)%nat /\ (next_free 0 spans <= a)%nat /\
         nth_error df a = Some ra /\ signal ra = 1%Z /\
         st_entry_date (run_upto df initial_capital rsi_exit k) = Some (date (bar ra)) /\
         st_entry_price (run_upto df initial_capital rsi_exit k) = Close (bar ra) /\
         forall c rc, (a < c < k)%nat -> nth_error df c = Some rc ->
                      exit_now df rsi_exit rc c = false).
Proof.
  apply (run_invariant df initial_capital rsi_exit (fun k st =>
    exists spans,
      Forall2 (closes df rsi_exit) spans (st_trades st) /\
      disjoint_from 0 spans /\
      (st_in_position st = false -> (next_free 0 spans <= k)%nat) /\
      (st_in_position st = true ->
         exists a ra,
           (a < k)%nat /\ (next_free 0 spans <= a)%nat /\
           nth_error df a = Some ra /\ signal ra = 1%Z /\
           st_entry_date st = Some (date (bar ra)) /\
           st_entry_price st = Close (bar ra) /\
           forall c rc, (a < c < k)%nat -> nth_error df c = Some rc ->
                        exit_now df rsi_exit rc c = false))).
  - exists []. repeat split; auto; discriminate.
  - intros k' row st st' Hrow (spans & Hf & Hd & Hflat & Hopen) _ Hc.
    destruct Hc as [Hp Hs | Hp Hs | Hp Hx | Hp Hx]; simpl.
    + exists spans. split; [exact Hf|]. split; [exact Hd|]. split; [discriminate|].
      intros _. exists k', row. specialize (Hflat Hp).
      split; [lia|]. split; [exact Hflat|]. split; [exact Hrow|]. split; [exact Hs|].
      split; [reflexivity|]. split; [reflexivity|].
      intros c rc Hc. lia.
    + exists spans. split; [exact Hf|]. split; [exact Hd|]. split.
      * intros _. specialize (Hflat Hp). lia.
      * intro Hq. congruence.
    + destruct (Hopen Hp) as (a & ra & Ha & Hn & Hra & Hsig & Hdate & Hprice & Hbetween).
      exists (spans ++ [(a, k')]). split; [|split; [|split; [|discriminate]]].
      * apply Forall2_app; [exact Hf|]. constructor; [|constructor].
        split; [exact Ha|]. exists ra, row. simpl.
        split; [exact Hra|]. split; [exact Hrow|]. split; [exact Hsig|].
        split; [exact Hdate|]. split; [exact Hprice|]. split; [reflexivity|].
        split; [reflexivity|]. split; [exact Hx|]. exact Hbetween.
      * apply disjoint_from_snoc; auto.
      * intros _. rewrite next_free_snoc. simpl. lia.
    + exists spans. split; [exact Hf|]. split; [exact Hd|]. split.
      * intro Hq. congruence.
      * intros _.
        destruct (Hopen Hp) as (a & ra & Ha & Hn & Hra & Hsig & Hdate & Hprice & Hbetween).
        exists a, ra.
        split; [lia|]. split; [exact Hn|]. split; [exact Hra|]. split; [exact Hsig|].
        split; [exact Hdate|]. split; [exact Hprice|].
        intros c rc Hc Hrc.
        destruct (Nat.eq_dec c k') as [-> | Hne].
        -- rewrite Hrow in Hrc. injection Hrc as <-. exact Hx.
        -- apply (Hbetween c rc); [lia | exact Hrc].
Qed.

(** Two bars per closed trade, and one more for an open position. *)
Lemma run_trade_count k :
  (k <= length df)%nat ->
  (2 * length (st_trades (run_upto df initial_capital rsi_exit k))
   + (if st_in_position (run_upto df initial_capital rsi_exit k) then 1 else 0) <= k)%nat.
Proof.
  apply (run_invariant df initial_capital rsi_exit (fun k st =>
    (2 * length (st_trades st) + (if st_in_position st then 1 else 0) <= k)%nat)).
  - simpl. lia.
  - intros k' row st st' _ IH _ Hc.
    destruct Hc as [Hp Hs | Hp Hs | Hp Hx | Hp Hx]; simpl; rewrite ?Hp in *;
      rewrite ?length_app; simpl; lia.
Qed.

End Loop.

End SpanFacts.

(** ** More on the backtest simulator *)

Lemma two_trips_increasing : Strategy.increasing_dates Samples.two_trips.
Proof.
  intros i j ri rj Hij Hi Hj.
  destruct i as [|[|[|[|[|i]]]]]; destruct j as [|[|[|[|[|j]]]]];
    simpl in Hi, Hj; try lia;
    try (destruct i; discriminate); try (destruct j; discriminate);
    injection Hi as <-; injection Hj as <-; simpl; lia.
Defined.

Section BacktestExtras.
Import Strategy Spans Samples.
Import LoopFacts SpanFacts SummaryFacts.

(** X1. Every trade of the table was opened on a bar whose [signal] is 1 and
    closed on the first later bar on which an exit trigger fires:
    [ma_diff_prev >= 0] with [ma_diff < 0], an RSI strictly above [rsi_exit]
    (a bar whose RSI equals it does not close), or the last bar.  The trades
    span disjoint runs of bars in the order of the table, so a trade is
    opened only after the one before it was closed. *)
Theorem trades_span_disjoint_bars (df : list SignaledBar) (ic rx : float) :
  exists spans,
    Forall2 (closes df rx) spans (trade_table df ic rx) /\
    disjoint_from 0 spans /\
    Forall (fun s => (snd s < length df)%nat) spans.
Proof.
  destruct (run_spans df ic rx (length df) (Nat.le_refl _)) as (spans & Hf & Hd & _).
  exists spans. fold (run_loop df ic rx) in Hf.
  split; [now apply closes_table|]. split; [exact Hd|].
  now apply (closes_in_range df rx spans (st_trades (run_loop df ic rx))).
Qed.

(** X2. A round trip needs two bars: the table holds at most half as many
    trades as the input has bars. *)
Theorem at_most_one_trade_per_two_bars (df : list SignaledBar) (ic rx : float) :
  (2 * length (trade_table df ic rx) <= length df)%nat.
Proof.
  pose proof (run_trade_count df ic rx (length df) (Nat.le_refl _)) as H.
  unfold trade_table. rewrite length_map. fold (run_loop df ic rx) in H. lia.
Qed.

(** X3. With a strictly increasing index, a trade of the table is entered on
    a later date than the date on which the trade before it was exited. *)
Theorem next_trade_enters_after_exit (df : list SignaledBar) (ic rx : float)
        (k : nat) (t1 t2 : Trade) :
  increasing_dates df ->
  nth_error (trade_table df ic rx) k = Some t1 ->
  nth_error (trade_table df ic rx) (S k) = Some t2 ->
  exists d, entry_date t2 = Some d /\ (exit_date t1 < d)%Z.
Proof.
  intros Hinc H1 H2.
  destruct (run_spans df ic rx (length df) (Nat.le_refl _)) as (spans & Hf & Hd & _).
  fold (run_loop df ic rx) in Hf. apply closes_table in Hf.
  fold (trade_table df ic rx) in Hf.
  destruct (Forall2_nth_r _ _ _ _ _ Hf H1) as (s1 & Hs1 & Hc1).
  destruct (Forall2_nth_r _ _ _ _ _ Hf H2) as (s2 & Hs2 & Hc2).
  pose proof (disjoint_from_consecutive spans 0 k s1 s2 Hd Hs1 Hs2) as Hlt.
  destruct Hc1 as (_ & ra1 & rb1 & _ & Hrb1 & _ & _ & _ & Hx1 & _).
  destruct Hc2 as (_ & ra2 & rb2 & Hra2 & _ & _ & He2 & _).
  exists (date (bar ra2)). split; [exact He2|].
  rewrite Hx1. exact (Hinc _ _ _ _ Hlt Hrb1 Hra2).
Qed.

(** The two trades of [two_trips]: out on day 2, in again on day 3. *)
Lemma next_trade_enters_after_exit_witness :
  exists t1 t2,
    nth_error (trade_table two_trips 100000 70) 0 = Some t1 /\
    nth_error (trade_table two_trips 100000 70) 1 = Some t2 /\
    exit_date t1 = 2%Z /\ entry_date t2 = Some 3%Z /\
    exists d, entry_date t2 = Some d /\ (exit_date t1 < d)%Z.
Proof.
  eexists. eexists.
  split; [vm_compute; reflexivity|]. split; [vm_compute; reflexivity|].
  split; [reflexivity|]. split; [reflexivity|].
  refine (next_trade_enters_after_exit two_trips 100000 70 0 _ _ two_trips_increasing _ _);
    vm_compute; reflexivity.
Defined.

End BacktestExtras.

(** ** More binary64 lemmas *)

Module F64MoreFacts.
Import F64 F64Facts Trend.

Lemma zero_div_pos (g l : float) :
  (g =? 0) = true -> (0 <? l) = true -> g / l = 0 \/ g / l = (-0).
Proof.
  intros Hg Hl.
  assert (Hq : exists s, Prim2SF (g / l) = S754_zero s).
  { rewrite div_spec.
    destruct (zero_view g Hg) as [-> | ->];
      [change (Prim2SF 0) with (S754_zero false)
      | change (Prim2SF (-0)) with (S754_zero true)];
      destruct (pos_view l Hl) as [-> | (m & e & ->)]; simpl; eauto. }
  destruct Hq as [[|] Hq]; [right | left]; apply Prim2SF_inj; rewrite Hq; reflexivity.
Qed.

Lemma zero_div_zero (g l : float) :
  (g =? 0) = true -> (l =? 0) = true -> g / l = nan.
Proof.
  intros Hg Hl.
  destruct (zero_view g Hg) as [-> | ->], (zero_view l Hl) as [-> | ->]; reflexivity.
Qed.

Lemma div_nan_r (g : float) : g / nan = nan.
Proof.
  apply Prim2SF_inj. rewrite div_spec. change (Prim2SF nan) with S754_nan.
  destruct (Prim2SF g) as [s| s | |s m e]; reflexivity.
Qed.

(** Whatever is divided by a zero gives NaN or an infinity. *)
Lemma div_by_zero (g l : float) :
  (l =? 0) = true -> g / l = nan \/ g / l = infinity \/ g / l = neg_infinity.
Proof.
  intro Hl.
  assert (Hq : Prim2SF (g / l) = S754_nan \/ exists s, Prim2SF (g / l) = S754_infinity s).
  { rewrite div_spec.
    destruct (zero_view l Hl) as [-> | ->];
      [change (Prim2SF 0) with (S754_zero false)
      | change (Prim2SF (-0)) with (S754_zero true)];
      destruct (Prim2SF g) as [s| s | |s m e]; simpl; eauto. }
  destruct Hq as [Hq | [[|] Hq]]; [left | right; right | right; left];
    apply Prim2SF_inj; rewrite Hq; reflexivity.
Qed.

Lemma le_not_lt_zero (d : float) :
  (d <=? 0) = true -> (d <? 0) = false -> (d =? 0) = true.
Proof.
  rewrite leb_spec, ltb_spec, FloatAxioms.eqb_spec.
  unfold SFleb, SFltb, SFeqb.
  destruct (SFcompare (Prim2SF d) (Prim2SF 0)) as [[| |]|]; auto; discriminate.
Qed.

Lemma opp_zero (d : float) : (d =? 0) = true -> (- d =? 0) = true.
Proof. intro H. destruct (zero_view d H) as [-> | ->]; reflexivity. Qed.

Lemma zero_eqb (a b : float) : (a =? 0) = true -> (b =? 0) = true -> (a =? b) = true.
Proof.
  intros Ha Hb.
  destruct (zero_view a Ha) as [-> | ->], (zero_view b Hb) as [-> | ->]; reflexivity.
Qed.

Lemma zero_or_nan_cases (x : float) :
  zero_or_nan x = true -> (x =? 0) = true \/ x = nan.
Proof.
  unfold zero_or_nan. intro H. apply orb_prop in H.
  destruct H as [H | H]; [now left | right; now apply is_nan_eq].
Qed.

Lemma zero_not_nan (x : float) : (x =? 0) = true -> is_nan x = false.
Proof. intro H. destruct (zero_view x H) as [-> | ->]; reflexivity. Qed.

End F64MoreFacts.

(** ** More on the RSI *)

Module RsiFacts.
Import Pandas Indicators Trend PandasFacts IndicatorFacts F64MoreFacts.

Lemma rsi_of_no_gain (g l : float) :
  (g =? 0) = true -> (0 <? l) = true -> rsi_of g l = 0.
Proof.
  intros Hg Hl. unfold rsi_of.
  destruct (zero_div_pos g l Hg Hl) as [-> | ->]; reflexivity.
Qed.

Lemma rsi_of_no_move (g l : float) :
  (g =? 0) = true -> (l =? 0) = true -> rsi_of g l = nan.
Proof.
  intros Hg Hl. unfold rsi_of. rewrite (zero_div_zero g l Hg Hl). reflexivity.
Qed.

(** With an average loss that is zero or undefined the RSI is 100 or NaN. *)
Lemma rsi_of_zero_or_nan_loss (g l : float) :
  zero_or_nan l = true -> rsi_of g l = 100 \/ rsi_of g l = nan.
Proof.
  intro H. unfold rsi_of.
  destruct (zero_or_nan_cases l H) as [Hz | ->].
  - destruct (div_by_zero g l Hz) as [-> | [-> | ->]]; auto.
  - rewrite div_nan_r. auto.
Qed.

(** The loss of a row whose price change is not negative is a zero or NaN. *)
Lemma loss_of_no_fall (d : float) :
  (d <? 0) = false ->
  zero_or_nan (- (if F64.is_nan d || (d <=? 0) then d else 0)) = true.
Proof.
  intro Hd. unfold zero_or_nan.
  destruct (F64.is_nan d) eqn:Hn; simpl.
  - rewrite (F64Facts.is_nan_eq d Hn). reflexivity.
  - destruct (d <=? 0) eqn:Hle.
    + rewrite (opp_zero d (le_not_lt_zero d Hle Hd)). reflexivity.
    + reflexivity.
Qed.

Lemma ewm_step_zero_or_nan f nw st cur :
  zero_or_nan (weighted st) = true -> zero_or_nan cur = true ->
  zero_or_nan (weighted (ewm_step f nw st cur)) = true.
Proof.
  intros Hw Hc. unfold ewm_step.
  destruct (F64.is_nan (weighted st)) eqn:Hnw; simpl;
    destruct (F64.is_nan cur) eqn:Hnc; simpl; auto.
  assert (Hwz : (weighted st =? 0) = true).
  { unfold zero_or_nan in Hw. rewrite Hnw, orb_false_r in Hw. exact Hw. }
  assert (Hcz : (cur =? 0) = true).
  { unfold zero_or_nan in Hc. rewrite Hnc, orb_false_r in Hc. exact Hc. }
  rewrite (zero_eqb _ _ Hwz Hcz). simpl. exact Hw.
Qed.

Lemma ewm_out_zero_or_nan minp st :
  zero_or_nan (weighted st) = true -> zero_or_nan (ewm_out minp st) = true.
Proof. intro H. unfold ewm_out. destruct (minp <=? nobs st)%nat; auto. Qed.

Lemma ewm_scan_zero_or_nan f nw minp xs : forall st,
  zero_or_nan (weighted st) = true ->
  Forall (fun x => zero_or_nan x = true) xs ->
  Forall (fun x => zero_or_nan x = true) (ewm_scan f nw minp st xs).
Proof.
  induction xs as [|x xs IH]; intros st Hw Hxs; simpl; constructor;
    inversion Hxs as [|? ? Hx Hxs']; subst.
  - apply ewm_out_zero_or_nan. now apply ewm_step_zero_or_nan.
  - apply IH; auto. now apply ewm_step_zero_or_nan.
Qed.

(** Zeros and NaNs are no infinities: pandas passes them on as they are. *)
Lemma prep_value_zero_or_nan x : zero_or_nan x = true -> prep_value x = x.
Proof.
  intro H. destruct (zero_or_nan_cases x H) as [Hz | ->]; [|reflexivity].
  destruct (F64Facts.zero_view x Hz) as [-> | ->]; reflexivity.
Qed.

Lemma prep_values_zero_or_nan xs :
  Forall (fun x => zero_or_nan x = true) xs -> prep_values xs = xs.
Proof.
  induction 1 as [|x xs Hx H IH]; simpl; [reflexivity|].
  now rewrite (prep_value_zero_or_nan x Hx), IH.
Qed.

(** The weighted mean of zeros and NaNs is a zero or NaN on every row: pandas
    leaves the mean untouched when the new value equals it. *)
Lemma ewm_mean_zero_or_nan alpha m xs :
  Forall (fun x => zero_or_nan x = true) xs ->
  Forall (fun x => zero_or_nan x = true) (ewm_mean alpha m xs).
Proof.
  intro H. unfold ewm_mean. rewrite (prep_values_zero_or_nan xs H).
  destruct xs as [|x xs]; simpl; constructor;
    inversion H as [|? ? Hx Hxs]; subst.
  - now apply ewm_out_zero_or_nan.
  - now apply ewm_scan_zero_or_nan.
Qed.

Lemma rsi_loss_no_fall xs :
  Forall (fun d => (d <? 0) = false) (diff xs) ->
  Forall (fun x => zero_or_nan x = true) (rsi_loss xs).
Proof.
  intro H. unfold rsi_loss, neg, clip_upper.
  rewrite map_map. apply Forall_map.
  eapply Forall_impl; [|exact H].
  intros d Hd. now apply loss_of_no_fall.
Qed.

Lemma Forall_nth_default {A} (P : A -> Prop) l i d :
  P d -> Forall P l -> P (nth i l d).
Proof.
  intros Hd H. revert i. induction H as [|x l Hx H IH]; intros [|i]; simpl; auto.
Qed.

(** On a series that never falls the RSI of every row is 100 or NaN. *)
Lemma calculate_rsi_no_fall xs p i :
  Forall (fun d => (d <? 0) = false) (diff xs) ->
  nth i (calculate_rsi xs p) nan = 100 \/ nth i (calculate_rsi xs p) nan = nan.
Proof.
  intro H.
  destruct (Nat.lt_ge_cases i (length xs)) as [Hlt | Hge].
  - rewrite calculate_rsi_nth by assumption.
    apply rsi_of_zero_or_nan_loss.
    apply (Forall_nth_default (fun x => zero_or_nan x = true)); [reflexivity|].
    unfold rsi_avg_loss. apply ewm_mean_zero_or_nan. now apply rsi_loss_no_fall.
  - right. apply nth_overflow. now rewrite calculate_rsi_length.
Qed.

End RsiFacts.

(** ** More on the RSI and the signals *)

Section RsiExtras.
Import Pandas Indicators Strategy Trend Samples.
Import PandasFacts IndicatorFacts SignalFacts LoopFacts SummaryFacts RsiFacts.

(** X4. On every row where the smoothed average gain is zero and the smoothed
    average loss is above zero, [calculate_rsi] returns exactly 0. *)
Theorem rsi_0_without_gain (series : Series) (period : positive) (i : nat) :
  (nth i (rsi_avg_gain series period) nan =? 0) = true ->
  (0 <? nth i (rsi_avg_loss series period) nan) = true ->
  nth i (calculate_rsi series period) nan = 0.
Proof.
  intros Hgain Hloss.
  destruct (Nat.lt_ge_cases i (length series)) as [Hlt | Hge].
  - rewrite calculate_rsi_nth by assumption. now apply rsi_of_no_gain.
  - rewrite nth_overflow in Hgain by now rewrite rsi_avg_gain_length.
    discriminate.
Qed.

(** Row 3 of a falling series with period 3. *)
Lemma rsi_0_without_gain_witness :
  nth 3 (calculate_rsi falling_prices 3) nan = 0.
Proof.
  apply (rsi_0_without_gain falling_prices 3 3); vm_compute; reflexivity.
Defined.

(** X5. On every row where both smoothed averages are zero (the price has not
    moved so far), [calculate_rsi] returns NaN: the quotient is 0/0. *)
Theorem rsi_undefined_without_move (series : Series) (period : positive) (i : nat) :
  (nth i (rsi_avg_gain series period) nan =? 0) = true ->
  (nth i (rsi_avg_loss series period) nan =? 0) = true ->
  nth i (calculate_rsi series period) nan = nan.
Proof.
  intros Hgain Hloss.
  destruct (Nat.lt_ge_cases i (length series)) as [Hlt | Hge].
  - rewrite calculate_rsi_nth by assumption. now apply rsi_of_no_move.
  - apply nth_overflow. now rewrite calculate_rsi_length.
Qed.

(** Row 15 of the price that never moves, default period. *)
Lemma rsi_undefined_without_move_witness :
  nth 15 (calculate_rsi flat_prices 14) nan = nan.
Proof.
  apply (rsi_undefined_without_move flat_prices 14 15); vm_compute; reflexivity.
Defined.

(** X6. On a price table that never falls, the RSI of every row is 100 or
    NaN, so [generate_signals] raises no buy signal whatever the periods, and
    the backtest of its table closes no trade and returns the all-zero
    summary. *)
Theorem never_falling_prices_never_buy
        (df : list Bar) (rsi_period short_window long_window : positive) (ic rx : float) :
  never_falls df ->
  F64.finite_nonzero ic = true ->
  (forall row, In row (generate_signals df rsi_period short_window long_window) ->
     signal row = 0%Z /\ (rsi row = 100 \/ rsi row = nan)) /\
  backtest_signals (generate_signals df rsi_period short_window long_window) ic rx
  = Ok ([], mkSummary 0 0 0 0 0).
Proof.
  intros Hnf Hic.
  assert (Hrows : forall row,
             In row (generate_signals df rsi_period short_window long_window) ->
             signal row = 0%Z /\ (rsi row = 100 \/ rsi row = nan)).
  { intros row Hin. apply In_nth_error in Hin. destruct Hin as [i Hi].
    destruct (generate_signals_row df rsi_period short_window long_window i row Hi)
      as (Hlt & _ & Hrsi & _ & _ & _ & _ & Hsig).
    assert (Hr : rsi row = 100 \/ rsi row = nan).
    { rewrite Hrsi. unfold col_rsi. now apply calculate_rsi_no_fall. }
    split; [|exact Hr].
    rewrite Hsig, col_signal_nth by assumption. rewrite <- Hrsi.
    destruct Hr as [-> | ->]; reflexivity. }
  split; [exact Hrows|].
  rewrite backtest_signals_returns
    by (left; now apply F64Facts.finite_nonzero_not_zero).
  unfold trade_table, final_capital, run_loop.
  rewrite run_no_signal; [| | apply Nat.le_refl].
  - simpl. unfold summarize. simpl.
    now rewrite (F64Facts.div_self ic Hic).
  - intros row Hin. destruct (Hrows row Hin) as [-> _]. discriminate.
Qed.

(** The steady rise of [rise], with the default periods and capital. *)
Lemma never_falling_prices_never_buy_witness :
  backtest_signals (generate_signals rise 14 20 50) 100000 70
  = Ok ([], mkSummary 0 0 0 0 0).
Proof.
  refine (proj2 (never_falling_prices_never_buy rise 14 20 50 100000 70 _ _)).
  - unfold never_falls. vm_compute. repeat constructor.
  - reflexivity.
Defined.

End RsiExtras.

(** ** Lemmas on the exponential average *)

Module EmaFacts.
Import Pandas Indicators PandasFacts F64MoreFacts.

Lemma eqb_refl_not_nan (c : float) : F64.is_nan c = false -> (c =? c) = true.
Proof.
  unfold F64.is_nan, PrimFloat.is_nan. intro H. now apply negb_false_iff in H.
Qed.

(** A finite number minus itself is [+0]. *)
Lemma sub_self (c : float) : PrimFloat.is_finite c = true -> c - c = 0.
Proof.
  unfold is_finite, PrimFloat.is_nan, is_infinity.
  rewrite !FloatAxioms.eqb_spec, abs_spec.
  change (Prim2SF infinity) with (S754_infinity false).
  intro H. apply Prim2SF_inj. rewrite sub_spec.
  change (Prim2SF 0) with (S754_zero false).
  destruct (Prim2SF c) as [s| s | |s m e]; simpl in H; try discriminate.
  - destruct s; reflexivity.
  - destruct s; discriminate.
  - clear H. unfold SF64sub, SFsub. cbv zeta. rewrite Z.sub_diag. reflexivity.
Qed.

Lemma prep_value_finite (c : float) : PrimFloat.is_finite c = true -> prep_value c = c.
Proof.
  unfold is_finite, prep_value. intro H.
  apply negb_true_iff, orb_false_iff in H. destruct H as [_ H]. now rewrite H.
Qed.

Lemma prep_values_repeat c n : prep_values (repeat c n) = repeat (prep_value c) n.
Proof. apply map_repeat. Qed.

Lemma ewm_scan_noadjust_length com f a minp st xs :
  length (ewm_scan_noadjust com f a minp st xs) = length xs.
Proof. revert st; induction xs as [|x xs IH]; intro st; simpl; auto. Qed.

Lemma ewm_mean_span_noadjust_length span xs :
  length (ewm_mean_span_noadjust span xs) = length xs.
Proof.
  unfold ewm_mean_span_noadjust. destruct xs as [|x xs]; simpl; auto.
  now rewrite ewm_scan_noadjust_length, prep_values_length.
Qed.

Lemma calculate_ema_length xs w : length (calculate_ema xs w) = length xs.
Proof. apply ewm_mean_span_noadjust_length. Qed.

(** The average starts at the first value (NaN for a missing or infinite one). *)
Lemma ewm_mean_span_noadjust_head span x xs :
  nth 0 (ewm_mean_span_noadjust span (x :: xs)) nan = prep_value x.
Proof.
  unfold ewm_mean_span_noadjust. simpl. unfold ewm_out. simpl.
  destruct (F64.is_nan (prep_value x)) eqn:Hn; simpl; [|reflexivity].
  symmetry. now apply F64Facts.is_nan_eq.
Qed.

(** While the mean equals the new value, a step leaves it as it is. *)
Lemma ewm_scan_noadjust_constant com f a c n : forall st,
  weighted st = c -> F64.is_nan c = false -> (1 <= nobs st)%nat ->
  ewm_scan_noadjust com f a 1 st (repeat c n) = repeat c n.
Proof.
  induction n as [|n IH]; intros st Hw Hn Hobs; simpl; [reflexivity|].
  assert (Hstep : ewm_step_noadjust com f a st c = mk_ewm c 1 (nobs st + 1)).
  { unfold ewm_step_noadjust. rewrite Hw, Hn. simpl.
    now rewrite (eqb_refl_not_nan c Hn). }
  rewrite Hstep. f_equal.
  - unfold ewm_out. simpl.
    destruct (nobs st + 1)%nat eqn:E; [lia | reflexivity].
  - apply IH; simpl; auto; lia.
Qed.

Lemma ewm_scan_noadjust_nan com f a n : forall st,
  weighted st = nan -> nobs st = 0%nat ->
  ewm_scan_noadjust com f a 1 st (repeat nan n) = repeat nan n.
Proof.
  induction n as [|n IH]; intros st Hw Hobs; simpl; [reflexivity|].
  assert (Hstep : ewm_step_noadjust com f a st nan = mk_ewm nan (old_wt st) 0).
  { unfold ewm_step_noadjust. rewrite Hw, Hobs. reflexivity. }
  rewrite Hstep. f_equal. apply IH; reflexivity.
Qed.

Lemma ewm_mean_span_noadjust_constant span c n :
  ewm_mean_span_noadjust span (repeat c n) = repeat (prep_value c) n.
Proof.
  unfold ewm_mean_span_noadjust. rewrite prep_values_repeat.
  destruct n as [|n]; [reflexivity|]. simpl.
  destruct (F64.is_nan (prep_value c)) eqn:Hn.
  - rewrite (F64Facts.is_nan_eq _ Hn). simpl. f_equal.
    now apply ewm_scan_noadjust_nan.
  - f_equal. now apply ewm_scan_noadjust_constant.
Qed.

Lemma zip_with_repeat {A B C} (f : A -> B -> C) a b n :
  zip_with f (repeat a n) (repeat b n) = repeat (f a b) n.
Proof. induction n as [|n IH]; simpl; [|rewrite IH]; reflexivity. Qed.

End EmaFacts.

(** ** The exponential average and the MACD *)

Section EmaExtras.
Import Pandas Indicators Samples.
Import PandasFacts EmaFacts.

(** X7. The exponential average of a price that never moves is that price on
    every row, exactly (pandas leaves the mean untouched when the new value
    equals it), unless the price is an infinity: pandas takes an infinite
    value for a missing one, and every row is NaN. *)
Theorem ema_of_constant (c : float) (n : nat) (window : positive) :
  calculate_ema (repeat c n) window
  = repeat (if PrimFloat.is_infinity c then nan else c) n.
Proof. apply ewm_mean_span_noadjust_constant. Qed.

(** X8. The MACD of a finite price that never moves is zero throughout: the
    MACD line, the signal line and the histogram are 0 on every row. *)
Theorem macd_of_constant (c : float) (n : nat) (fast slow signal : positive) :
  PrimFloat.is_finite c = true ->
  calculate_macd (repeat c n) fast slow signal = (repeat 0 n, repeat 0 n, repeat 0 n).
Proof.
  intro Hc. unfold calculate_macd, calculate_ema. cbv zeta.
  rewrite !ewm_mean_span_noadjust_constant, (prep_value_finite c Hc).
  rewrite zip_with_repeat, (sub_self c Hc).
  rewrite ewm_mean_span_noadjust_constant, zip_with_repeat.
  reflexivity.
Qed.

(** Sixteen bars at 100 with the default periods. *)
Lemma macd_of_constant_witness :
  calculate_macd flat_prices 12 26 9 = (repeat 0 16, repeat 0 16, repeat 0 16).
Proof. apply (macd_of_constant 100 16 12 26 9). reflexivity. Defined.

(** X9. [calculate_macd] returns three series of the input's length; their
    first row is 0 when the first price is finite (both averages start at
    that price), and every row of the histogram is the MACD line minus the
    signal line. *)
Theorem macd_shape (series : Series) (fast slow signal : positive) :
  let '(macd_line, signal_line, histogram) := calculate_macd series fast slow signal in
  length macd_line = length series /\
  length signal_line = length series /\
  length histogram = length series /\
  (forall i, (i < length series)%nat ->
     nth i histogram nan = nth i macd_line nan - nth i signal_line nan) /\
  (PrimFloat.is_finite (nth 0 series nan) = true -> series <> [] ->
     nth 0 macd_line nan = 0 /\ nth 0 signal_line nan = 0 /\ nth 0 histogram nan = 0).
Proof.
  unfold calculate_macd. cbv zeta.
  assert (Hm : length (zip_with sub (calculate_ema series fast) (calculate_ema series slow))
               = length series).
  { rewrite zip_with_length; rewrite !calculate_ema_length; reflexivity. }
  assert (Hs : length (ewm_mean_span_noadjust signal
                 (zip_with sub (calculate_ema series fast) (calculate_ema series slow)))
               = length series).
  { now rewrite ewm_mean_span_noadjust_length. }
  split; [exact Hm|]. split; [exact Hs|]. split.
  { rewrite zip_with_length; [exact Hm | now rewrite Hm, Hs]. }
  split.
  { intros i Hi. apply zip_with_nth; [now rewrite Hm | now rewrite Hs]. }
  intros Hfin Hne. destruct series as [|x xs]; [congruence|]. simpl in Hfin.
  unfold calculate_ema, ewm_mean_span_noadjust. simpl.
  rewrite (prep_value_finite x Hfin). unfold ewm_out. simpl.
  assert (Hn : F64.is_nan x = false).
  { unfold F64.is_nan. unfold is_finite in Hfin.
    apply negb_true_iff, orb_false_iff in Hfin. tauto. }
  rewrite Hn. simpl. rewrite (sub_self x Hfin). repeat split.
Qed.

End EmaExtras.

(** ** Lemmas on later rows: what a series operation gives on a prefix *)

Module CausalFacts.
Import Pandas Indicators Strategy PandasFacts IndicatorFacts EmaFacts SignalFacts.

Lemma firstn_prefix {A} (a rest : list A) : firstn (length a) (a ++ rest) = a.
Proof.
  rewrite firstn_app, Nat.sub_diag, firstn_all. simpl. apply app_nil_r.
Qed.

Lemma firstn_prefix_len {A} (a rest : list A) n :
  length a = n -> firstn n (a ++ rest) = a.
Proof. intros <-. apply firstn_prefix. Qed.

Lemma firstn_plus {A} (l : list A) : forall n m,
  firstn (n + m) l = firstn n l ++ firstn m (skipn n l).
Proof.
  induction l as [|x l IH]; intros [|n] m; simpl; auto.
  - now rewrite firstn_nil.
  - now rewrite IH.
Qed.

Lemma zip_with_app {A B C} (f : A -> B -> C) a1 : forall a2 r1 r2,
  length a1 = length a2 ->
  zip_with f (a1 ++ r1) (a2 ++ r2) = zip_with f a1 a2 ++ zip_with f r1 r2.
Proof.
  induction a1 as [|x a1 IH]; intros [|y a2] r1 r2 H; simpl in *; try discriminate; auto.
  f_equal. apply IH. congruence.
Qed.

Lemma shift_prefix xs ys : exists rest, shift (xs ++ ys) = shift xs ++ rest.
Proof.
  unfold shift. rewrite length_app, firstn_plus.
  exists (firstn (length ys) (skipn (length xs) (nan :: xs ++ ys))).
  f_equal.
  change (nan :: xs ++ ys) with ((nan :: xs) ++ ys).
  rewrite firstn_app.
  replace (length xs - length (nan :: xs))%nat with 0%nat by (simpl; lia).
  simpl. now rewrite app_nil_r.
Qed.

Lemma diff_prefix xs ys : exists rest, diff (xs ++ ys) = diff xs ++ rest.
Proof.
  unfold diff. destruct (shift_prefix xs ys) as [r ->].
  eexists. apply zip_with_app. now rewrite shift_length.
Qed.

(** The kernel's state after row [i] depends on the rows up to [i] only. *)
Lemma roll_mean_state_prefix w xs ys i :
  (i < length xs)%nat -> roll_mean_state w (xs ++ ys) i = roll_mean_state w xs i.
Proof.
  induction i as [|k IH]; intro Hi.
  - simpl. now rewrite app_nth1 by assumption.
  - cbn [roll_mean_state].
    rewrite IH by lia.
    rewrite (app_nth1 xs ys nan Hi).
    rewrite (app_nth1 xs ys nan (n := S k - w)) by lia.
    reflexivity.
Qed.

Lemma rolling_mean_prefix w m xs ys :
  exists rest, rolling_mean w m (xs ++ ys) = rolling_mean w m xs ++ rest.
Proof.
  unfold rolling_mean. rewrite length_app, seq_app, map_app.
  eexists. f_equal.
  apply map_ext_in. intros i Hi. apply in_seq in Hi.
  destruct w as [|w']; [reflexivity|].
  rewrite prep_values_app, roll_mean_state_prefix; [reflexivity|].
  rewrite prep_values_length. lia.
Qed.

Lemma ewm_scan_prefix f nw minp xs ys : forall st,
  exists rest,
    ewm_scan f nw minp st (xs ++ ys) = ewm_scan f nw minp st xs ++ rest.
Proof.
  induction xs as [|x xs IH]; intro st; simpl.
  - eexists. reflexivity.
  - destruct (IH (ewm_step f nw st x)) as [r ->]. eexists. reflexivity.
Qed.

Lemma ewm_mean_prefix alpha m xs ys :
  exists rest, ewm_mean alpha m (xs ++ ys) = ewm_mean alpha m xs ++ rest.
Proof.
  unfold ewm_mean. rewrite prep_values_app.
  destruct xs as [|x xs]; simpl.
  - eexists. reflexivity.
  - match goal with |- context [ewm_scan ?f ?nw ?mp ?st (?a ++ ?b)] =>
      destruct (ewm_scan_prefix f nw mp a b st) as [r ->] end.
    eexists. reflexivity.
Qed.

Lemma ewm_scan_noadjust_prefix com f a minp xs ys : forall st,
  exists rest,
    ewm_scan_noadjust com f a minp st (xs ++ ys)
    = ewm_scan_noadjust com f a minp st xs ++ rest.
Proof.
  induction xs as [|x xs IH]; intro st; simpl.
  - eexists. reflexivity.
  - destruct (IH (ewm_step_noadjust com f a st x)) as [r ->]. eexists. reflexivity.
Qed.

Lemma ewm_mean_span_noadjust_prefix span xs ys :
  exists rest,
    ewm_mean_span_noadjust span (xs ++ ys) = ewm_mean_span_noadjust span xs ++ rest.
Proof.
  unfold ewm_mean_span_noadjust. rewrite prep_values_app.
  destruct xs as [|x xs]; simpl.
  - eexists. reflexivity.
  - match goal with |- context [ewm_scan_noadjust ?c ?f ?al ?mp ?st (?a ++ ?b)] =>
      destruct (ewm_scan_noadjust_prefix c f al mp a b st) as [r ->] end.
    eexists. reflexivity.
Qed.

Lemma calculate_sma_prefix xs ys w :
  exists rest, calculate_sma (xs ++ ys) w = calculate_sma xs w ++ rest.
Proof. apply rolling_mean_prefix. Qed.

Lemma calculate_ema_prefix xs ys w :
  exists rest, calculate_ema (xs ++ ys) w = calculate_ema xs w ++ rest.
Proof. apply ewm_mean_span_noadjust_prefix. Qed.

Lemma rsi_avg_gain_prefix xs ys p :
  exists rest, rsi_avg_gain (xs ++ ys) p = rsi_avg_gain xs p ++ rest.
Proof.
  unfold rsi_avg_gain, rsi_gain, clip_lower.
  destruct (diff_prefix xs ys) as [r ->]. rewrite map_app.
  apply ewm_mean_prefix.
Qed.

Lemma rsi_avg_loss_prefix xs ys p :
  exists rest, rsi_avg_loss (xs ++ ys) p = rsi_avg_loss xs p ++ rest.
Proof.
  unfold rsi_avg_loss, rsi_loss, neg, clip_upper.
  destruct (diff_prefix xs ys) as [r ->]. rewrite !map_app.
  apply ewm_mean_prefix.
Qed.

Lemma calculate_rsi_prefix xs ys p :
  exists rest, calculate_rsi (xs ++ ys) p = calculate_rsi xs p ++ rest.
Proof.
  rewrite !calculate_rsi_unfold.
  destruct (rsi_avg_gain_prefix xs ys p) as [rg ->].
  destruct (rsi_avg_loss_prefix xs ys p) as [rl ->].
  eexists. apply zip_with_app.
  now rewrite rsi_avg_gain_length, rsi_avg_loss_length.
Qed.

Section Columns.
Variables df more : list Bar.
Variables rsi_period short_window long_window : positive.

Lemma col_rsi_prefix :
  exists rest, col_rsi (df ++ more) rsi_period = col_rsi df rsi_period ++ rest.
Proof. unfold col_rsi, col_close. rewrite map_app. apply calculate_rsi_prefix. Qed.

Lemma col_sma_short_prefix :
  exists rest,
    col_sma_short (df ++ more) short_window = col_sma_short df short_window ++ rest.
Proof. unfold col_sma_short, col_close. rewrite map_app. apply calculate_sma_prefix. Qed.

Lemma col_sma_long_prefix :
  exists rest,
    col_sma_long (df ++ more) long_window = col_sma_long df long_window ++ rest.
Proof. unfold col_sma_long, col_close. rewrite map_app. apply calculate_sma_prefix. Qed.

Lemma col_ma_diff_prefix :
  exists rest,
    col_ma_diff (df ++ more) short_window long_window
    = col_ma_diff df short_window long_window ++ rest.
Proof.
  unfold col_ma_diff.
  destruct col_sma_short_prefix as [r1 ->]. destruct col_sma_long_prefix as [r2 ->].
  eexists. apply zip_with_app.
  now rewrite col_sma_short_length, col_sma_long_length.
Qed.

Lemma col_ma_diff_prev_prefix :
  exists rest,
    col_ma_diff_prev (df ++ more) short_window long_window
    = col_ma_diff_prev df short_window long_window ++ rest.
Proof.
  unfold col_ma_diff_prev. destruct col_ma_diff_prefix as [r ->].
  apply shift_prefix.
Qed.

Lemma col_signal_prefix :
  exists rest,
    col_signal (df ++ more) rsi_period short_window long_window
    = col_signal df rsi_period short_window long_window ++ rest.
Proof.
  unfold col_signal, buy_conditions.
  destruct col_rsi_prefix as [r1 ->]. destruct col_ma_diff_prefix as [r2 ->].
  rewrite !map_app.
  rewrite zip_with_app by now rewrite !length_map, col_rsi_length, col_ma_diff_length.
  rewrite map_app. eexists. reflexivity.
Qed.

Lemma with_columns_app d i r1 r2 :
  with_columns d rsi_period short_window long_window i (r1 ++ r2)
  = with_columns d rsi_period short_window long_window i r1
    ++ with_columns d rsi_period short_window long_window (i + length r1) r2.
Proof.
  revert i; induction r1 as [|b r1 IH]; intro i; simpl.
  - now rewrite Nat.add_0_r.
  - rewrite IH.
    replace (i + S (length r1))%nat with (S i + length r1)%nat by lia.
    reflexivity.
Qed.

(** The rows below [length df] read the columns below [length df] only. *)
Lemma with_columns_prefix rows : forall i,
  (i + length rows <= length df)%nat ->
  with_columns (df ++ more) rsi_period short_window long_window i rows
  = with_columns df rsi_period short_window long_window i rows.
Proof.
  induction rows as [|b rows IH]; intros i Hi; simpl in *; [reflexivity|].
  rewrite IH by lia. f_equal.
  destruct col_rsi_prefix as [r1 ->]. destruct col_sma_short_prefix as [r2 ->].
  destruct col_sma_long_prefix as [r3 ->]. destruct col_ma_diff_prefix as [r4 ->].
  destruct col_ma_diff_prev_prefix as [r5 ->]. destruct col_signal_prefix as [r6 ->].
  rewrite !app_nth1; try reflexivity.
  - unfold col_signal, buy_conditions. rewrite length_map, zip_with_length;
      rewrite !length_map, ?col_rsi_length, ?col_ma_diff_length; lia.
  - unfold col_ma_diff_prev. rewrite shift_length, col_ma_diff_length. lia.
  - rewrite col_ma_diff_length. lia.
  - rewrite col_sma_long_length. lia.
  - rewrite col_sma_short_length. lia.
  - rewrite col_rsi_length. lia.
Qed.

Lemma generate_signals_prefix :
  exists rest,
    generate_signals (df ++ more) rsi_period short_window long_window
    = generate_signals df rsi_period short_window long_window ++ rest.
Proof.
  unfold generate_signals. rewrite with_columns_app.
  rewrite with_columns_prefix by (simpl; lia).
  eexists. reflexivity.
Qed.

End Columns.

End CausalFacts.

(** ** No look-ahead *)

Section CausalExtras.
Import Pandas Indicators Strategy Samples.
Import PandasFacts IndicatorFacts EmaFacts CausalFacts.

(** X10. The indicators do not look ahead: the rows a moving average, an
    exponential average or the RSI gives for a series are the rows it gives
    for that series followed by later prices. *)
Theorem indicators_do_not_look_ahead (xs ys : Series) (w : positive) :
  firstn (length xs) (calculate_sma (xs ++ ys) w) = calculate_sma xs w /\
  firstn (length xs) (calculate_ema (xs ++ ys) w) = calculate_ema xs w /\
  firstn (length xs) (calculate_rsi (xs ++ ys) w) = calculate_rsi xs w.
Proof.
  destruct (calculate_sma_prefix xs ys w) as [r1 ->].
  destruct (calculate_ema_prefix xs ys w) as [r2 ->].
  destruct (calculate_rsi_prefix xs ys w) as [r3 ->].
  split; [|split]; apply firstn_prefix_len.
  - apply calculate_sma_length.
  - apply calculate_ema_length.
  - apply calculate_rsi_length.
Qed.

(** X11. The signals do not look ahead: the rows [generate_signals] gives for
    a price table, indicators and [signal] included, are the rows it gives
    for that table followed by later bars. *)
Theorem signals_do_not_look_ahead
        (df more : list Bar) (rsi_period short_window long_window : positive) :
  firstn (length df) (generate_signals (df ++ more) rsi_period short_window long_window)
  = generate_signals df rsi_period short_window long_window.
Proof.
  destruct (generate_signals_prefix df more rsi_period short_window long_window) as [r ->].
  assert (L : length (generate_signals df rsi_period short_window long_window) = length df).
  { unfold generate_signals.
    rewrite <- (length_map bar), SignalFacts.with_columns_bar. reflexivity. }
  now apply firstn_prefix_len.
Qed.

End CausalExtras.

(** ** Lemmas on later bars in the backtest *)

Module ExtendFacts.
Import Strategy LoopFacts.

Lemma loop_body_prefix df more rx st k :
  (S k < length df)%nat ->
  loop_body (df ++ more) rx st k = loop_body df rx st k.
Proof.
  intro Hk. unfold loop_body.
  rewrite nth_error_app1 by lia. rewrite length_app.
  replace (k =? length df + length more - 1)%nat with false
    by (symmetry; apply Nat.eqb_neq; lia).
  replace (k =? length df - 1)%nat with false
    by (symmetry; apply Nat.eqb_neq; lia).
  reflexivity.
Qed.

(** Up to the last bar of [df] the loop does not see the later bars. *)
Lemma run_upto_prefix df more ic rx k :
  (S k <= length df)%nat ->
  run_upto (df ++ more) ic rx k = run_upto df ic rx k.
Proof.
  induction k as [|k IH]; intro Hk; [reflexivity|].
  rewrite !run_upto_S, IH by lia. apply loop_body_prefix. lia.
Qed.

Lemma loop_body_trades df rx st k :
  exists rest, st_trades (loop_body df rx st k) = st_trades st ++ rest /\
               (length rest <= 1)%nat.
Proof.
  unfold loop_body.
  destruct (nth_error df k) as [row|]; [|exists []; rewrite app_nil_r; auto].
  destruct (negb (st_in_position st) && (signal row =? 1)%Z);
    [exists []; simpl; rewrite app_nil_r; auto|].
  destruct (st_in_position st); [|exists []; rewrite app_nil_r; auto].
  match goal with |- context [if ?c then _ else _] => destruct c end.
  - eexists. simpl. split; [reflexivity | simpl; lia].
  - exists []. rewrite app_nil_r. auto.
Qed.

(** Trades are only ever added at the end of the list. *)
Lemma run_upto_trades_grow df ic rx k : forall j,
  exists rest,
    st_trades (run_upto df ic rx (k + j)) = st_trades (run_upto df ic rx k) ++ rest.
Proof.
  induction j as [|j [rest IH]].
  - rewrite Nat.add_0_r. exists []. now rewrite app_nil_r.
  - replace (k + S j)%nat with (S (k + j)) by lia. rewrite run_upto_S.
    destruct (loop_body_trades df rx (run_upto df ic rx (k + j)) (k + j)) as (r & -> & _).
    rewrite IH. exists (rest ++ r). now rewrite app_assoc.
Qed.

End ExtendFacts.

(** ** Later bars and earlier trades *)

Section ExtendExtras.
Import Strategy Samples.
Import LoopFacts ExtendFacts.

(** X12. Later bars leave the earlier trades as they are: all the trades of a
    table but possibly its last one (the one its last bar closed) are, in
    place and field for field, the first trades of the same table followed by
    later bars. *)
Theorem later_bars_keep_earlier_trades (df more : list SignaledBar) (ic rx : float) :
  exists before last later,
    trade_table df ic rx = before ++ last /\
    (length last <= 1)%nat /\
    trade_table (df ++ more) ic rx = before ++ later.
Proof.
  unfold trade_table, run_loop.
  destruct (length df) as [|m] eqn:Hlen.
  - apply length_zero_iff_nil in Hlen. subst df. simpl.
    exists [], [], (map scale_pnl_pct (st_trades (run_upto more ic rx (length more)))).
    auto.
  - exists (map scale_pnl_pct (st_trades (run_upto df ic rx m))).
    rewrite run_upto_S.
    destruct (loop_body_trades df rx (run_upto df ic rx m) m) as (r & -> & Hr).
    exists (map scale_pnl_pct r).
    rewrite length_app, Hlen.
    replace (S m + length more)%nat with (m + (S (length more)))%nat by lia.
    destruct (run_upto_trades_grow (df ++ more) ic rx m (S (length more))) as [rest ->].
    rewrite run_upto_prefix by lia.
    exists (map scale_pnl_pct rest).
    rewrite !map_app, length_map. auto.
Qed.

End ExtendExtras.

(** ** Lemmas on missing prices in a window *)

Module WindowFacts.
Import Pandas Indicators PandasFacts.

Lemma filter_length_lt {A} (f : A -> bool) (l : list A) x :
  In x l -> f x = false -> (length (filter f l) < length l)%nat.
Proof.
  induction l as [|y l IH]; intros Hin Hx; [contradiction|].
  simpl. destruct Hin as [-> | Hin].
  - rewrite Hx. pose proof (filter_length_le f l). lia.
  - specialize (IH Hin Hx). destruct (f y); simpl; lia.
Qed.

(** A window that holds a NaN holds fewer observations than rows. *)
Lemma window_with_nan w vs i j :
  (0 < w)%nat -> (j <= i)%nat -> (i < j + w)%nat -> (i < length vs)%nat ->
  F64.is_nan (nth j vs nan) = true ->
  (length (observations (window_at w i vs)) < w)%nat.
Proof.
  intros Hw Hji Hiw Hi Hnan.
  assert (Hlen : (length (window_at w i vs) <= w)%nat).
  { unfold window_at. rewrite length_skipn, length_firstn. lia. }
  assert (Hin : In (nth j vs nan) (window_at w i vs)).
  { unfold window_at.
    replace (nth j vs nan)
      with (nth (j - (S i - w)) (skipn (S i - w) (firstn (S i) vs)) nan).
    - apply nth_In. rewrite length_skipn, length_firstn. lia.
    - rewrite nth_skipn.
      replace (S i - w + (j - (S i - w)))%nat with j by lia.
      rewrite nth_firstn.
      replace (j <? S i)%nat with true by (symmetry; apply Nat.ltb_lt; lia).
      reflexivity. }
  unfold observations.
  pose proof (filter_length_lt (fun x => negb (F64.is_nan x)) _ _ Hin) as Hlt.
  assert (Hf : negb (F64.is_nan (nth j vs nan)) = false) by now rewrite Hnan.
  specialize (Hlt Hf). lia.
Qed.

Lemma rolling_mean_nan_in_window w xs i j :
  (0 < w)%nat -> (j <= i)%nat -> (i < j + w)%nat -> (i < length xs)%nat ->
  F64.is_nan (nth j xs nan) = true ->
  nth i (rolling_mean w w xs) nan = nan.
Proof.
  intros Hw Hji Hiw Hi Hnan. unfold rolling_mean.
  rewrite nth_map_seq by assumption.
  destruct w as [|w']; [reflexivity|].
  apply calc_mean_few.
  rewrite roll_mean_state_nobs by (rewrite ?prep_values_length; lia).
  apply (window_with_nan _ _ i j); try assumption.
  - now rewrite prep_values_length.
  - rewrite prep_values_nth, (F64Facts.is_nan_eq _ Hnan). reflexivity.
Qed.

End WindowFacts.

(** ** Missing prices and the moving average *)

Section WindowExtras.
Import Pandas Indicators Samples.
Import WindowFacts.

(** X13. A missing price leaves the moving average undefined on every row
    whose window holds it: the row of the NaN and the [window - 1] rows after
    it. *)
Theorem sma_undefined_around_missing_price
        (series : Series) (window : positive) (i j : nat) :
  (j <= i)%nat -> (i < j + Pos.to_nat window)%nat -> (i < length series)%nat ->
  F64.is_nan (nth j series nan) = true ->
  nth i (calculate_sma series window) nan = nan.
Proof.
  intros Hji Hiw Hi Hnan. unfold calculate_sma.
  apply (rolling_mean_nan_in_window _ series i j); auto. lia.
Qed.

(** A gap on row 2 and a window of three rows: row 4 is still undefined. *)
Lemma sma_undefined_around_missing_price_witness :
  nth 4 (calculate_sma [1; 2; nan; 4; 5; 6] 3) nan = nan.
Proof.
  apply (sma_undefined_around_missing_price [1; 2; nan; 4; 5; 6] 3 4 2);
    simpl; try lia; reflexivity.
Defined.

End WindowExtras.

(** ** Lemmas on the downloads *)

Module FetchFacts.
Import Strategy DataFetch.

Lemma dict_get_set_same {V} (k : symbol) (v : V) d : dict_get k (dict_set k v d) = Some v.
Proof.
  induction d as [|[k' v'] d IH]; simpl.
  - now rewrite String.eqb_refl.
  - destruct (String.eqb k' k) eqn:E; simpl; rewrite E; auto.
Qed.

Lemma dict_get_set_other {V} (k k' : symbol) (v : V) d :
  k <> k' -> dict_get k' (dict_set k v d) = dict_get k' d.
Proof.
  intro Hne. induction d as [|[k0 v0] d IH]; simpl.
  - destruct (String.eqb k k') eqn:E; auto.
    apply String.eqb_eq in E. contradiction.
  - destruct (String.eqb k0 k) eqn:E; simpl.
    + apply String.eqb_eq in E. subst k0.
      destruct (String.eqb k k') eqn:E'; auto.
      apply String.eqb_eq in E'. contradiction.
    + destruct (String.eqb k0 k'); auto.
Qed.

Lemma dict_set_keys {V} (k : symbol) (v : V) d :
  map fst (dict_set k v d) = if existsb (String.eqb k) (map fst d)
                              then map fst d else map fst d ++ [k].
Proof.
  induction d as [|[k0 v0] d IH]; simpl; [reflexivity|].
  rewrite (String.eqb_sym k k0).
  destruct (String.eqb k0 k); simpl; [reflexivity|].
  rewrite IH. destruct (existsb (String.eqb k) (map fst d)); reflexivity.
Qed.

Lemma dict_set_keys_in {V} (k : symbol) (v : V) d k' :
  In k' (map fst (dict_set k v d)) <-> k' = k \/ In k' (map fst d).
Proof.
  rewrite dict_set_keys.
  destruct (existsb (String.eqb k) (map fst d)) eqn:E.
  - apply existsb_exists in E. destruct E as (x & Hx & Hk).
    apply String.eqb_eq in Hk. subst x.
    split; [auto | intros [-> | H]; auto].
  - rewrite in_app_iff. simpl. intuition.
Qed.

Lemma dict_set_keys_nodup {V} (k : symbol) (v : V) d :
  NoDup (map fst d) -> NoDup (map fst (dict_set k v d)).
Proof.
  intro H. rewrite dict_set_keys.
  destruct (existsb (String.eqb k) (map fst d)) eqn:E; [exact H|].
  apply NoDup_app; [exact H | repeat constructor; auto |].
  intros x Hx [Heq | []]. subst x.
  assert (Hex : existsb (String.eqb k) (map fst d) = true).
  { apply existsb_exists. exists k. split; [exact Hx | apply String.eqb_refl]. }
  congruence.
Qed.

Lemma dict_set_length {V} (k : symbol) (v : V) d :
  (length (dict_set k v d) <= S (length d))%nat.
Proof.
  induction d as [|[k0 v0] d IH]; simpl; [lia|].
  destruct (String.eqb k0 k); simpl; lia.
Qed.

(** The outcome of three calls at most, by cases. *)
Lemma yfinance_attempts_cases remote sym io :
  let o0 := yf_download remote sym (yf_calls io) in
  let o1 := yf_download remote sym (S (yf_calls io)) in
  let o2 := yf_download remote sym (S (S (yf_calls io))) in
  download_via_yfinance true remote sym io
  = if negb (is_failed o0)
    then (mkIo (yf_calls io + 1) (csv_calls io) (slept io), o0)
    else if negb (is_failed o1)
    then (mkIo (yf_calls io + 2) (csv_calls io) (slept io + 5), o1)
    else (mkIo (yf_calls io + 3) (csv_calls io) (slept io + 10), o2).
Proof.
  unfold download_via_yfinance, MAX_RETRIES, RETRY_DELAY_SECONDS, sleep. simpl.
  replace (yf_calls io + 1)%nat with (S (yf_calls io)) by lia.
  replace (yf_calls io + 2)%nat with (S (S (yf_calls io))) by lia.
  replace (yf_calls io + 3)%nat with (S (S (S (yf_calls io)))) by lia.
  replace (slept io + 10)%nat with (slept io + 5 + 5)%nat by lia.
  destruct (yf_download remote sym (yf_calls io)) as [d0|e0]; simpl; [reflexivity|].
  destruct (yf_download remote sym (S (yf_calls io))) as [d1|e1]; simpl; [reflexivity|].
  destruct (yf_download remote sym (S (S (yf_calls io)))) as [d2|e2]; reflexivity.
Qed.

Lemma csv_attempts_cases remote sym io :
  let o0 := csv_download remote sym (csv_calls io) in
  let o1 := csv_download remote sym (S (csv_calls io)) in
  let o2 := csv_download remote sym (S (S (csv_calls io))) in
  download_via_csv remote sym io
  = if negb (retryable o0)
    then (mkIo (yf_calls io) (csv_calls io + 1) (slept io), o0)
    else if negb (retryable o1)
    then (mkIo (yf_calls io) (csv_calls io + 2) (slept io + 5), o1)
    else (mkIo (yf_calls io) (csv_calls io + 3) (slept io + 10), o2).
Proof.
  unfold download_via_csv, MAX_RETRIES, RETRY_DELAY_SECONDS, sleep. simpl.
  replace (csv_calls io + 1)%nat with (S (csv_calls io)) by lia.
  replace (csv_calls io + 2)%nat with (S (S (csv_calls io))) by lia.
  replace (csv_calls io + 3)%nat with (S (S (S (csv_calls io)))) by lia.
  replace (slept io + 10)%nat with (slept io + 5 + 5)%nat by lia.
  destruct (csv_download remote sym (csv_calls io)) as [d0|[| |]]; simpl; try reflexivity.
  destruct (csv_download remote sym (S (csv_calls io))) as [d1|[| |]]; simpl; try reflexivity.
  destruct (csv_download remote sym (S (S (csv_calls io)))) as [d2|[| |]]; reflexivity.
Qed.

End FetchFacts.

(** ** Lemmas on [fetch_stock_data] *)

Module FetchLoopFacts.
Import Strategy DataFetch Demo FetchFacts.

Lemma fetch_one_bounds h p remote sym io :
  (yf_calls io <= yf_calls (fst (fetch_one h p remote sym io)) <= yf_calls io + 3)%nat /\
  (csv_calls io <= csv_calls (fst (fetch_one h p remote sym io)) <= csv_calls io + 3)%nat /\
  (slept io <= slept (fst (fetch_one h p remote sym io)) <= slept io + 20)%nat.
Proof.
  unfold fetch_one.
  destruct (p && h) eqn:Hph.
  - apply andb_prop in Hph. destruct Hph as [-> ->].
    rewrite yfinance_attempts_cases. cbv zeta.
    destruct (is_failed (yf_download remote sym (yf_calls io))) eqn:F0; simpl.
    2: { destruct (yf_download remote sym (yf_calls io)); [simpl; lia | discriminate]. }
    destruct (is_failed (yf_download remote sym (S (yf_calls io)))) eqn:F1; simpl.
    2: { destruct (yf_download remote sym (S (yf_calls io))); [simpl; lia | discriminate]. }
    destruct (yf_download remote sym (S (S (yf_calls io)))) as [d|e]; [simpl; lia|].
    rewrite csv_attempts_cases. cbv zeta. simpl.
    destruct (retryable (csv_download remote sym (csv_calls io))); simpl.
    2: { destruct (csv_download remote sym (csv_calls io)); simpl; lia. }
    destruct (retryable (csv_download remote sym (S (csv_calls io)))); simpl.
    2: { destruct (csv_download remote sym (S (csv_calls io))); simpl; lia. }
    destruct (csv_download remote sym (S (S (csv_calls io)))); simpl; lia.
  - rewrite csv_attempts_cases. cbv zeta.
    destruct (retryable (csv_download remote sym (csv_calls io))); simpl.
    2: { destruct (csv_download remote sym (csv_calls io)); simpl; lia. }
    destruct (retryable (csv_download remote sym (S (csv_calls io)))); simpl.
    2: { destruct (csv_download remote sym (S (csv_calls io))); simpl; lia. }
    destruct (csv_download remote sym (S (S (csv_calls io)))); simpl; lia.
Qed.

Lemma csv_unreachable remote sym io :
  (forall n, is_failed (csv_download remote sym n) = true) ->
  is_failed (snd (download_via_csv remote sym io)) = true.
Proof.
  intro H. rewrite csv_attempts_cases. cbv zeta.
  destruct (retryable (csv_download remote sym (csv_calls io))); simpl; [|apply H].
  destruct (retryable (csv_download remote sym (S (csv_calls io)))); simpl; apply H.
Qed.

Lemma yfinance_unreachable remote sym io :
  (forall n, is_failed (yf_download remote sym n) = true) ->
  is_failed (snd (download_via_yfinance true remote sym io)) = true.
Proof.
  intro H. rewrite yfinance_attempts_cases. cbv zeta.
  rewrite !H. simpl. apply H.
Qed.

(** A symbol that cannot be reached is stored with the empty table. *)
Lemma fetch_one_unreachable h p remote sym io :
  unreachable remote sym -> snd (fetch_one h p remote sym io) = Empty.
Proof.
  intro Hu. unfold fetch_one.
  destruct (p && h) eqn:Hph.
  - apply andb_prop in Hph. destruct Hph as [-> ->].
    pose proof (yfinance_unreachable remote sym io (fun n => proj1 (Hu n))) as Hy.
    destruct (download_via_yfinance true remote sym io) as [io1 [d|e]];
      [discriminate|].
    pose proof (csv_unreachable remote sym io1 (fun n => proj2 (Hu n))) as Hc.
    destruct (download_via_csv remote sym io1) as [io2 [d|e']]; [discriminate|].
    reflexivity.
  - pose proof (csv_unreachable remote sym io (fun n => proj2 (Hu n))) as Hc.
    destruct (download_via_csv remote sym io) as [io1 [d|e]]; [discriminate|].
    reflexivity.
Qed.

Lemma fetch_loop_spec h p remote symbols : forall io results,
  NoDup (map fst results) ->
  NoDup (map fst (snd (fetch_loop h p remote symbols io results))) /\
  (forall s, In s (map fst (snd (fetch_loop h p remote symbols io results)))
             <-> In s (map fst results) \/ In s symbols) /\
  (length (snd (fetch_loop h p remote symbols io results))
   <= length results + length symbols)%nat /\
  (yf_calls io <= yf_calls (fst (fetch_loop h p remote symbols io results))
   <= yf_calls io + 3 * length symbols)%nat /\
  (csv_calls io <= csv_calls (fst (fetch_loop h p remote symbols io results))
   <= csv_calls io + 3 * length symbols)%nat /\
  (slept io <= slept (fst (fetch_loop h p remote symbols io results))
   <= slept io + 20 * length symbols)%nat /\
  (forall s, unreachable remote s ->
             In s symbols \/ dict_get s results = Some Empty ->
             dict_get s (snd (fetch_loop h p remote symbols io results)) = Some Empty).
Proof.
  induction symbols as [|sym rest IH]; intros io results Hnd; simpl.
  - repeat split; auto; try lia; try tauto.
  - pose proof (fetch_one_bounds h p remote sym io) as (By & Bc & Bs).
    pose proof (fetch_one_unreachable h p remote sym io) as Hun.
    destruct (fetch_one h p remote sym io) as [io1 df]. simpl in *.
    destruct (IH io1 (dict_set sym df results) (dict_set_keys_nodup sym df results Hnd))
      as (H1 & H2 & H3 & H4 & H5 & H6 & H7).
    pose proof (dict_set_length sym df results) as Hl.
    split; [exact H1|]. split.
    { intro s. rewrite H2, dict_set_keys_in. intuition. }
    split; [lia|]. split; [lia|]. split; [lia|]. split; [lia|].
    intros s Hu Hs. apply H7; [exact Hu|].
    destruct (String.eqb sym s) eqn:E.
    + apply String.eqb_eq in E. subst s. right.
      rewrite dict_get_set_same. f_equal. now apply Hun.
    + apply String.eqb_neq in E.
      destruct Hs as [[Heq | Hin] | Hget]; [contradiction | now left |].
      right. now rewrite dict_get_set_other.
Qed.

End FetchLoopFacts.

(** ** The downloads *)

Section FetchExtras.
Import Strategy DataFetch Demo FetchSamples.
Import String.StringSyntax.
Import FetchFacts FetchLoopFacts.

(** X14. [_download_via_yfinance] calls the service at most three times and
    never the CSV endpoint; it sleeps five seconds after each failed call but
    the last; it returns what the first call that does not raise returns,
    and it raises, with the exception of the third call, only when all three
    calls raised. *)
Theorem yfinance_retry_policy (remote : Remote) (sym : symbol) (io : Io) :
  exists n,
    (1 <= n <= MAX_RETRIES)%nat /\
    yf_calls (fst (download_via_yfinance true remote sym io)) = (yf_calls io + n)%nat /\
    csv_calls (fst (download_via_yfinance true remote sym io)) = csv_calls io /\
    slept (fst (download_via_yfinance true remote sym io))
    = (slept io + RETRY_DELAY_SECONDS * (n - 1))%nat /\
    snd (download_via_yfinance true remote sym io)
    = yf_download remote sym (yf_calls io + (n - 1)) /\
    (forall k, (k < n - 1)%nat ->
               is_failed (yf_download remote sym (yf_calls io + k)) = true) /\
    (is_failed (snd (download_via_yfinance true remote sym io)) = true ->
     n = MAX_RETRIES).
Proof.
  rewrite yfinance_attempts_cases. cbv zeta.
  unfold MAX_RETRIES, RETRY_DELAY_SECONDS.
  destruct (is_failed (yf_download remote sym (yf_calls io))) eqn:F0; simpl.
  2: { exists 1%nat. simpl. rewrite !Nat.add_0_r.
       split; [lia|]. split; [reflexivity|]. split; [reflexivity|].
       split; [reflexivity|]. split; [reflexivity|].
       split; [intros k Hk; lia | congruence]. }
  destruct (is_failed (yf_download remote sym (S (yf_calls io)))) eqn:F1; simpl.
  2: { exists 2%nat. simpl. rewrite Nat.add_1_r.
       split; [lia|]. split; [reflexivity|]. split; [reflexivity|].
       split; [reflexivity|]. split; [reflexivity|].
       split; [|congruence].
       intros k Hk. assert (k = 0)%nat by lia. subst k. now rewrite Nat.add_0_r. }
  exists 3%nat. simpl.
  replace (yf_calls io + 2)%nat with (S (S (yf_calls io))) by lia.
  split; [lia|]. split; [reflexivity|]. split; [reflexivity|].
  split; [reflexivity|]. split; [reflexivity|].
  split; [|reflexivity].
  intros k Hk. destruct k as [|[|k]]; [| |lia].
  - now rewrite Nat.add_0_r.
  - now rewrite Nat.add_1_r.
Qed.

(** X15. [_download_via_csv] retries only a [RequestException]: it calls the
    endpoint at most three times, every call before the last one raised a
    [RequestException], and the outcome is that of the last call, so any other
    exception is raised at once, without a retry or a sleep. *)
Theorem csv_retry_policy (remote : Remote) (sym : symbol) (io : Io) :
  exists n,
    (1 <= n <= MAX_RETRIES)%nat /\
    yf_calls (fst (download_via_csv remote sym io)) = yf_calls io /\
    csv_calls (fst (download_via_csv remote sym io)) = (csv_calls io + n)%nat /\
    slept (fst (download_via_csv remote sym io))
    = (slept io + RETRY_DELAY_SECONDS * (n - 1))%nat /\
    snd (download_via_csv remote sym io)
    = csv_download remote sym (csv_calls io + (n - 1)) /\
    (forall k, (k < n - 1)%nat ->
               csv_download remote sym (csv_calls io + k) = Failed RequestException) /\
    (n < MAX_RETRIES ->
     snd (download_via_csv remote sym io) <> Failed RequestException)%nat.
Proof.
  rewrite csv_attempts_cases. cbv zeta.
  unfold MAX_RETRIES, RETRY_DELAY_SECONDS.
  assert (R : forall o, retryable o = true -> o = Failed RequestException).
  { intros [d|[| |]]; simpl; congruence. }
  assert (NR : forall o, retryable o = false -> o <> Failed RequestException).
  { intros [d|[| |]]; simpl; congruence. }
  destruct (retryable (csv_download remote sym (csv_calls io))) eqn:F0; simpl.
  2: { exists 1%nat. simpl. rewrite !Nat.add_0_r.
       split; [lia|]. split; [reflexivity|]. split; [reflexivity|].
       split; [reflexivity|]. split; [reflexivity|].
       split; [intros k Hk; lia | intros _; now apply NR]. }
  destruct (retryable (csv_download remote sym (S (csv_calls io)))) eqn:F1; simpl.
  2: { exists 2%nat. simpl. rewrite Nat.add_1_r.
       split; [lia|]. split; [reflexivity|]. split; [reflexivity|].
       split; [reflexivity|]. split; [reflexivity|].
       split; [|intros _; now apply NR].
       intros k Hk. assert (k = 0)%nat by lia. subst k.
       rewrite Nat.add_0_r. now apply R. }
  exists 3%nat. simpl.
  replace (csv_calls io + 2)%nat with (S (S (csv_calls io))) by lia.
  split; [lia|]. split; [reflexivity|]. split; [reflexivity|].
  split; [reflexivity|]. split; [reflexivity|].
  split; [|lia].
  intros k Hk. destruct k as [|[|k]]; [| |lia].
  - rewrite Nat.add_0_r. now apply R.
  - rewrite Nat.add_1_r. now apply R.
Qed.

(** X16. [fetch_stock_data] stores one table per distinct symbol, every
    symbol asked for and no other; it calls each service at most three times
    per symbol and sleeps at most twenty seconds per symbol. *)
Theorem fetch_covers_every_symbol
        (has_yfinance prefer_yfinance : bool) (remote : Remote)
        (symbols : list symbol) (io : Io) :
  NoDup (map fst (snd (fetch_stock_data has_yfinance prefer_yfinance remote symbols io))) /\
  (forall s, In s (map fst (snd (fetch_stock_data has_yfinance prefer_yfinance
                                                    remote symbols io)))
             <-> In s symbols) /\
  (yf_calls (fst (fetch_stock_data has_yfinance prefer_yfinance remote symbols io))
   <= yf_calls io + 3 * length symbols)%nat /\
  (csv_calls (fst (fetch_stock_data has_yfinance prefer_yfinance remote symbols io))
   <= csv_calls io + 3 * length symbols)%nat /\
  (slept (fst (fetch_stock_data has_yfinance prefer_yfinance remote symbols io))
   <= slept io + 20 * length symbols)%nat.
Proof.
  unfold fetch_stock_data.
  destruct (fetch_loop_spec has_yfinance prefer_yfinance remote symbols io [])
    as (H1 & H2 & _ & H4 & H5 & H6 & _); [constructor|].
  split; [exact H1|]. split.
  { intro s. rewrite H2. simpl. tauto. }
  split; [lia|]. split; lia.
Qed.

(** X17. A symbol for which every call of both services fails is stored with
    the empty, column-less table: [fetch_stock_data] raises nothing for it. *)
Theorem unreachable_symbol_gets_empty_table
        (has_yfinance prefer_yfinance : bool) (remote : Remote)
        (symbols : list symbol) (io : Io) (sym : symbol) :
  unreachable remote sym -> In sym symbols ->
  dict_get sym (snd (fetch_stock_data has_yfinance prefer_yfinance remote symbols io))
  = Some Empty.
Proof.
  intros Hu Hin. unfold fetch_stock_data.
  destruct (fetch_loop_spec has_yfinance prefer_yfinance remote symbols io [])
    as (_ & _ & _ & _ & _ & _ & H7); [constructor|].
  apply H7; auto.
Qed.

(** With both services down, three symbols (one of them twice) cost nine
    calls of each service; both distinct symbols get the empty table. *)
Lemma unreachable_symbol_gets_empty_table_witness :
  dict_get "INFY.NS"%string (snd (fetch_stock_data true true down tickers idle))
  = Some Empty /\
  fetch_stock_data true true down tickers idle
  = (mkIo 9 9 60, [("TCS.NS"%string, Empty); ("INFY.NS"%string, Empty)]).
Proof.
  split; [|vm_compute; reflexivity].
  apply (unreachable_symbol_gets_empty_table true true down tickers idle).
  - intro n. split; reflexivity.
  - simpl. auto.
Defined.

End FetchExtras.

(** ** Lemmas on [run_demo] *)

Module DemoFacts.
Import Strategy DataFetch Demo FetchFacts SummaryFacts.

Lemma dict_get_In {V} (k : symbol) (v : V) d : dict_get k d = Some v -> In (k, v) d.
Proof.
  induction d as [|[k' v'] d IH]; simpl; [discriminate|].
  destruct (String.eqb k' k) eqn:E.
  - apply String.eqb_eq in E. intro H. injection H as ->. subst. now left.
  - intro H. right. now apply IH.
Qed.

(** A table with its columns is processed to the end: the backtest runs with
    the default capital, which is not zero. *)
Lemma process_symbol_table rows :
  exists trades summary,
    process_symbol (Table rows) = Done (trades, summary) /\
    total_trades summary = length trades.
Proof.
  unfold process_symbol, dropna.
  rewrite backtest_signals_returns by (left; reflexivity).
  eexists. eexists. split; [reflexivity|].
  apply summarize_counts.
Qed.

Lemma process_all_empty_frame data : forall trades rows sym,
  In (sym, Empty) data -> process_all data trades rows = Abort KeyError.
Proof.
  induction data as [|[s df] data IH]; intros trades rows sym Hin; [contradiction|].
  simpl. destruct df as [|bars].
  - reflexivity.
  - destruct (process_symbol_table bars) as (t & sm & -> & _).
    destruct Hin as [Heq | Hin]; [discriminate|].
    now apply (IH _ _ sym).
Qed.


End DemoFacts.

(** ** The run *)

Section DemoExtras.
Import Strategy DataFetch Demo FetchSamples.
Import FetchFacts FetchLoopFacts DemoFacts.
Import String.StringSyntax.

(** X18. One symbol for which every download fails ends the whole run:
    [fetch_stock_data] stores the column-less table for it, [dropna] raises
    [KeyError] on that table, and [run_demo] has no handler for it, so no
    trade, summary or completion message comes out, whatever the other
    symbols gave. *)
Theorem unreachable_symbol_aborts_run
        (has_yfinance : bool) (remote : Remote) (symbols : list symbol) (io : Io)
        (sym : symbol) :
  unreachable remote sym -> In sym symbols ->
  snd (run_demo has_yfinance remote symbols io) = Abort KeyError.
Proof.
  intros Hu Hin. unfold run_demo.
  pose proof (fetch_loop_spec has_yfinance true remote symbols io [] (NoDup_nil _))
    as (_ & _ & _ & _ & _ & _ & H7).
  specialize (H7 sym Hu (or_introl Hin)).
  unfold fetch_stock_data.
  destruct (fetch_loop has_yfinance true remote symbols io []) as [io1 data].
  simpl in *. apply dict_get_In in H7.
  now rewrite (process_all_empty_frame data [] [] sym H7).
Qed.

(** Both services down for every symbol. *)
Lemma unreachable_symbol_aborts_run_witness :
  snd (run_demo true down tickers idle) = Abort KeyError.
Proof.
  apply (unreachable_symbol_aborts_run true down tickers idle "INFY.NS"%string).
  - intro n. split; reflexivity.
  - simpl. auto.
Defined.



End DemoExtras.

(** ** Lemmas on [prepare_features] *)

Module FeatureFacts.
Import Pandas Indicators Strategy MlModel PandasFacts IndicatorFacts.

Lemma shift_up_length xs : length (shift_up xs) = length xs.
Proof. destruct xs; simpl; [reflexivity|]. rewrite length_app. simpl. lia. Qed.

(** Row [i] of [s.shift(-1)] is row [i + 1] of [s], NaN past the end. *)
Lemma shift_up_nth xs i : nth i (shift_up xs) nan = nth (S i) xs nan.
Proof.
  destruct xs as [|x xs]; simpl; [now destruct i|].
  destruct (Nat.lt_ge_cases i (length xs)) as [Hlt | Hge].
  - now rewrite app_nth1.
  - rewrite app_nth2 by assumption.
    rewrite (nth_overflow xs) by assumption.
    destruct (i - length xs)%nat as [|[|k]]; reflexivity.
Qed.

#[warnings="-inexact-float"]
Lemma m_target_nth df i :
  (i < length df)%nat ->
  nth i (m_target df) 0%Z
  = if F64.gtb (nth (S i) (m_close df) nan) (nth i (m_close df) nan * 1.002)
    then 1%Z else 0%Z.
Proof.
  intro Hi. unfold m_target, m_close_shift.
  rewrite (zip_with_nth _ _ _ i nan nan).
  - now rewrite shift_up_nth.
  - rewrite shift_up_length. unfold m_close. now rewrite length_map.
  - unfold m_close. now rewrite length_map.
Qed.

Lemma nth_map_nth_error {A B} (f : A -> B) l i x d :
  nth_error l i = Some x -> nth i (map f l) d = f x.
Proof.
  revert i; induction l as [|y l IH]; intros [|i] H; simpl in *; try discriminate.
  - now injection H as ->.
  - now apply IH.
Qed.

Lemma full_rows_nth_error df j rows k r :
  nth_error (full_rows df j rows) k = Some r ->
  nth_error rows k = Some (f_bar r) /\
  f_sma50 r = nth (j + k) (m_sma50 df) nan /\
  f_close_lag1 r = nth (j + k) (m_close_lag1 df) nan /\
  f_close_shift r = nth (j + k) (m_close_shift df) nan /\
  f_target r = nth (j + k) (m_target df) 0%Z.
Proof.
  revert j k; induction rows as [|b rows IH]; intros j [|k] H; simpl in *; try discriminate.
  - injection H as <-. simpl. rewrite Nat.add_0_r. auto.
  - replace (j + S k)%nat with (S j + k)%nat by lia. now apply IH.
Qed.

Lemma has_nan_false r :
  has_nan r = false ->
  F64.is_nan (f_sma50 r) = false /\
  F64.is_nan (f_close_shift r) = false /\
  Forall (fun x => F64.is_nan x = false) (features r).
Proof.
  unfold has_nan, features. simpl. rewrite !orb_false_iff.
  intros H. decompose [and] H. repeat split; auto.
  repeat constructor; assumption.
Qed.

(** A row that survives [dropna] is past the warm-up of the 50-bar average
    and has a next row. *)
Lemma kept_row_index df i r :
  f_sma50 r = nth i (m_sma50 df) nan ->
  f_close_shift r = nth i (m_close_shift df) nan ->
  has_nan r = false ->
  (49 <= i)%nat /\ (S i < length df)%nat.
Proof.
  intros Hs Hc Hn. destruct (has_nan_false r Hn) as (H50 & Hsh & _).
  split.
  - destruct (Nat.lt_ge_cases i 49) as [Hlt | Hge]; [|exact Hge].
    rewrite Hs in H50. unfold m_sma50 in H50.
    rewrite calculate_sma_warmup in H50 by (simpl; lia). discriminate.
  - destruct (Nat.lt_ge_cases (S i) (length df)) as [Hlt | Hge]; [exact Hlt|].
    rewrite Hc in Hsh. unfold m_close_shift in Hsh.
    rewrite shift_up_nth, nth_overflow in Hsh by (unfold m_close; now rewrite length_map).
    discriminate.
Qed.

Lemma kept_count df rows : forall i,
  (i + length rows = length df)%nat ->
  (length (filter (fun r => negb (has_nan r)) (full_rows df i rows))
   <= length df - 1 - Nat.max i 49)%nat.
Proof.
  induction rows as [|b rows IH]; intros i Hlen; simpl in *; [lia|].
  specialize (IH (S i) ltac:(lia)).
  match goal with |- context [negb (has_nan ?r)] => destruct (has_nan r) eqn:Hn end;
    simpl.
  - lia.
  - apply (kept_row_index df i) in Hn; [| reflexivity | reflexivity]. lia.
Qed.

Lemma kept_rows_nth_error df k r :
  nth_error (kept_rows df) k = Some r ->
  has_nan r = false /\
  exists i, nth_error (full_rows df 0 df) i = Some r.
Proof.
  intro H. apply nth_error_In in H. unfold kept_rows in H.
  apply filter_In in H. destruct H as [Hin Hn].
  split; [now apply negb_true_iff in Hn|].
  now apply In_nth_error.
Qed.

End FeatureFacts.

(** ** The feature table *)

Section FeatureExtras.
Import Pandas Indicators Strategy MlModel FetchSamples.
Import PandasFacts IndicatorFacts FeatureFacts.

(** X20. [prepare_features] returns as many labels as feature rows, and at
    most [len(df) - 50] of them: the first 49 rows lack the 50-bar average
    and the last row lacks a next close, so a table of 50 bars or fewer gives
    no sample at all. *)
Theorem prepare_features_loses_fifty_rows (df : list Bar) :
  length (fst (prepare_features df)) = length (snd (prepare_features df)) /\
  (length (fst (prepare_features df)) <= length df - 50)%nat.
Proof.
  unfold prepare_features. simpl. rewrite !length_map. split; [reflexivity|].
  unfold kept_rows.
  pose proof (kept_count df df 0 eq_refl) as H. simpl in H. lia.
Qed.

(** X21. Sample [k] of [X] and label [k] of [y] belong to the same bar, a bar
    from row 49 on that has a next bar; the label is 1 exactly when the next
    close is above 1.002 times the bar's close, and no feature of the sample
    is NaN. *)
#[warnings="-inexact-float"]
Theorem label_looks_one_bar_ahead (df : list Bar) (k : nat) (d label : Z) :
  nth_error (snd (prepare_features df)) k = Some (d, label) ->
  exists i b next feats,
    (49 <= i)%nat /\
    nth_error df i = Some b /\ nth_error df (S i) = Some next /\
    d = date b /\
    label = (if F64.gtb (Close next) (Close b * 1.002) then 1%Z else 0%Z) /\
    nth_error (fst (prepare_features df)) k = Some (d, feats) /\
    Forall (fun x => F64.is_nan x = false) feats.
Proof.
  unfold prepare_features. simpl. intro Hk.
  rewrite nth_error_map in Hk.
  destruct (nth_error (kept_rows df) k) as [r|] eqn:Hr; [|discriminate].
  injection Hk as <- <-.
  destruct (kept_rows_nth_error df k r Hr) as (Hn & i & Hi).
  destruct (full_rows_nth_error df 0 df i r Hi) as (Hb & H50 & _ & Hsh & Ht).
  simpl in H50, Hsh, Ht.
  destruct (kept_row_index df i r H50 Hsh Hn) as (H49 & Hnext).
  destruct (nth_error df (S i)) as [next|] eqn:Hnx.
  2: { apply nth_error_None in Hnx. lia. }
  exists i, (f_bar r), next, (features r).
  split; [exact H49|]. split; [exact Hb|]. split; [exact Hnx|].
  split; [reflexivity|]. split; [|split].
  - rewrite Ht, m_target_nth by lia. unfold m_close.
    now rewrite (nth_map_nth_error Close df i (f_bar r) nan Hb),
                (nth_map_nth_error Close df (S i) next nan Hnx).
  - now rewrite nth_error_map, Hr.
  - now apply has_nan_false.
Qed.

(** Sixty bars give ten samples; the first belongs to row 49. *)
#[warnings="-inexact-float"]
Lemma label_looks_one_bar_ahead_witness :
  length (snd (prepare_features sixty_bars)) = 10%nat /\
  exists i b next feats,
    (49 <= i)%nat /\
    nth_error sixty_bars i = Some b /\ nth_error sixty_bars (S i) = Some next /\
    49%Z = date b /\
    1%Z = (if F64.gtb (Close next) (Close b * 1.002) then 1%Z else 0%Z) /\
    nth_error (fst (prepare_features sixty_bars)) 0 = Some (49%Z, feats) /\
    Forall (fun x => F64.is_nan x = false) feats.
Proof.
  split; [vm_compute; reflexivity|].
  apply (label_looks_one_bar_ahead sixty_bars 0 49 1).
  vm_compute; reflexivity.
Defined.

End FeatureExtras.

(** ** Lemmas on the services a fetch calls *)

Module FallbackFacts.
Import Strategy DataFetch FetchFacts.

Lemma fetch_one_without_yfinance h p remote sym io :
  p && h = false -> yf_calls (fst (fetch_one h p remote sym io)) = yf_calls io.
Proof.
  intro Hph. unfold fetch_one. rewrite Hph.
  rewrite csv_attempts_cases. cbv zeta.
  destruct (retryable (csv_download remote sym (csv_calls io))); simpl.
  2: { destruct (csv_download remote sym (csv_calls io)); reflexivity. }
  destruct (retryable (csv_download remote sym (S (csv_calls io)))); simpl.
  2: { destruct (csv_download remote sym (S (csv_calls io))); reflexivity. }
  destruct (csv_download remote sym (S (S (csv_calls io)))); reflexivity.
Qed.

Lemma fetch_one_healthy remote sym io :
  (forall s n, is_failed (yf_download remote s n) = false) ->
  fst (fetch_one true true remote sym io)
  = mkIo (S (yf_calls io)) (csv_calls io) (slept io).
Proof.
  intro H. unfold fetch_one. simpl.
  rewrite yfinance_attempts_cases. cbv zeta. rewrite H. simpl.
  specialize (H sym (yf_calls io)).
  destruct (yf_download remote sym (yf_calls io)); [|discriminate].
  simpl. f_equal. lia.
Qed.

Lemma fetch_loop_without_yfinance h p remote symbols : forall io results,
  p && h = false ->
  yf_calls (fst (fetch_loop h p remote symbols io results)) = yf_calls io.
Proof.
  induction symbols as [|sym rest IH]; intros io results Hph; simpl; [reflexivity|].
  pose proof (fetch_one_without_yfinance h p remote sym io Hph) as H1.
  destruct (fetch_one h p remote sym io) as [io1 df]. simpl in H1.
  rewrite IH by assumption. exact H1.
Qed.

Lemma fetch_loop_healthy remote symbols : forall io results,
  (forall s n, is_failed (yf_download remote s n) = false) ->
  fst (fetch_loop true true remote symbols io results)
  = mkIo (yf_calls io + length symbols) (csv_calls io) (slept io).
Proof.
  induction symbols as [|sym rest IH]; intros io results H; simpl.
  - rewrite Nat.add_0_r. now destruct io.
  - pose proof (fetch_one_healthy remote sym io H) as H1.
    destruct (fetch_one true true remote sym io) as [io1 df]. simpl in H1.
    rewrite IH by assumption. subst io1. simpl. f_equal. lia.
Qed.

End FallbackFacts.

(** ** Which service a fetch calls *)

Section FallbackExtras.
Import Strategy DataFetch FetchSamples Samples.
Import FallbackFacts SummaryFacts.
Import String.StringSyntax.

(** X22. [fetch_stock_data] never calls yfinance when it is not installed or
    not preferred; and when it is installed, preferred and answers every
    call, each symbol costs exactly one yfinance call, the CSV endpoint is
    never called and nothing sleeps. *)
Theorem fallback_only_on_failure
        (has_yfinance prefer_yfinance : bool) (remote : Remote)
        (symbols : list symbol) (io : Io) :
  (prefer_yfinance && has_yfinance = false ->
   yf_calls (fst (fetch_stock_data has_yfinance prefer_yfinance remote symbols io))
   = yf_calls io) /\
  (prefer_yfinance && has_yfinance = true ->
   (forall s n, is_failed (yf_download remote s n) = false) ->
   fst (fetch_stock_data has_yfinance prefer_yfinance remote symbols io)
   = mkIo (yf_calls io + length symbols) (csv_calls io) (slept io)).
Proof.
  unfold fetch_stock_data. split.
  - intro H. now apply fetch_loop_without_yfinance.
  - intros Hph H. apply andb_prop in Hph. destruct Hph as [-> ->].
    now apply fetch_loop_healthy.
Qed.

End FallbackExtras.
